(** * wiki: page storage and the HTTP handlers around it

    A shallow embedding of the page store of the wiki server
    ([mkSubDir], [Page.Save], [LoadPage]), of its counters and of the
    index, view, edit and save handlers, over a model of the file system
    calls they make
    ([os.MkdirAll], [os.Stat], [ioutil.ReadFile], [ioutil.WriteFile]) and of
    Go's [path] package ([path.Clean], [path.Join], [path.Dir]).

    Go strings and byte slices are sequences of bytes: a Go [string] is a
    [string] here (one [ascii] per byte), a [[]byte] is a [list byte]. *)

From Stdlib Require Import Strings.Ascii Strings.String Strings.Byte.
From Equations Require Import Equations.
From stdpp Require Import base option list gmap strings.


(** ** Go strings *)

Module GoString.

(** [s[i]] for an index that is in range; the callers below only read
    below [len(s)]. *)
Definition byte_at (s : string) (i : nat) : ascii :=
  default Ascii.zero (String.get i s).

(** [s[lo:hi]]: [None] stands for the run-time panic "slice bounds out of
    range", raised unless [lo <= hi <= len(s)]. *)
Definition slice (s : string) (lo hi : nat) : option string :=
  if bool_decide (lo ≤ hi ∧ hi ≤ String.length s)
  then Some (String.substring lo (hi - lo) s)
  else None.

(** [strings.LastIndex(s, "/")], [None] for -1. *)
Fixpoint lastSlash (s : string) : option nat :=
  match s with
  | EmptyString => None
  | String c t =>
      match lastSlash t with
      | Some i => Some (S i)
      | None => if Ascii.eqb c "/" then Some 0 else None
      end
  end.

(** [strings.Join(elems, sep)] *)
Fixpoint strings_Join (elems : list string) (sep : string) : string :=
  match elems with
  | [] => ""
  | [e] => e
  | e :: rest => e +:+ sep +:+ strings_Join rest sep
  end.

(** [strings.TrimLeft(s, "/")] *)
Fixpoint TrimLeft_slash (s : string) : string :=
  match s with
  | String c t => if Ascii.eqb c "/" then TrimLeft_slash t else s
  | EmptyString => s
  end.

(** [strings.Contains(s, sub)] *)
Fixpoint Contains (s sub : string) : bool :=
  String.prefix sub s ||
  match s with
  | EmptyString => false
  | String _ t => Contains t sub
  end.

End GoString.

(** ** Package [path] *)

Module path.
Import GoString.

(** The backtracking loop of [Clean] on a [..] element, entered after the
    first [out.w--]:
    [for out.w > dotdot && out.index(out.w) != '/' { out.w-- }]. *)
Fixpoint backtrack (buf : string) (dotdot w : nat) : nat :=
  match w with
  | 0 => 0
  | S w' =>
      if bool_decide (dotdot < w) && negb (Ascii.eqb (byte_at buf w) "/")
      then backtrack buf dotdot w'
      else w
  end.

(** [true] when an element ends here: [r == n || path[r] == '/']. *)
Definition elem_end (rest : string) : bool :=
  match rest with
  | EmptyString => true
  | String c _ => Ascii.eqb c "/"
  end.

(** [if rooted && out.w != 1 || !rooted && out.w != 0 { out.append('/') }] *)
Definition add_slash (rooted : bool) (out : string) : string :=
  let w := String.length out in
  if (rooted && negb (Nat.eqb w 1)) || (negb rooted && negb (Nat.eqb w 0))
  then out +:+ "/" else out.

(** The main loop of [Clean], [for r < n { switch { ... } }]. [rest] is
    [path[r:]] and [out] the written part [buf[:w]] of the lazy buffer, so
    that [out.w] is [String.length out]. [copy_rest] is the inner loop
    that copies a real path element up to the next slash; that slash is
    skipped at once, as the next round of the outer loop would do. *)
Fixpoint clean_loop (rooted : bool) (rest out : string) (dotdot : nat)
  {struct rest} : string :=
  match rest with
  | EmptyString => out
  | String c t =>
      if Ascii.eqb c "/" then
        (* empty path element *)
        clean_loop rooted t out dotdot
      else if Ascii.eqb c "." && elem_end t then
        (* . element *)
        clean_loop rooted t out dotdot
      else
        match t with
        | String c1 t2 =>
            if Ascii.eqb c "." && Ascii.eqb c1 "." && elem_end t2 then
              (* .. element: remove to last / *)
              if bool_decide (dotdot < String.length out) then
                (* can backtrack *)
                let w := backtrack out dotdot (String.length out - 1) in
                clean_loop rooted t2 (String.substring 0 w out) dotdot
              else if negb rooted then
                (* cannot backtrack, but not rooted, so append .. element *)
                let out1 :=
                  if bool_decide (0 < String.length out)
                  then out +:+ "/" else out in
                let out2 := out1 +:+ ".." in
                clean_loop rooted t2 out2 (String.length out2)
              else clean_loop rooted t2 out dotdot
            else
              (* real path element *)
              copy_rest rooted t (add_slash rooted out +:+ String c "") dotdot
        | EmptyString =>
            copy_rest rooted t (add_slash rooted out +:+ String c "") dotdot
        end
  end
with copy_rest (rooted : bool) (t out : string) (dotdot : nat)
  {struct t} : string :=
  match t with
  | EmptyString => out
  | String c' t' =>
      if Ascii.eqb c' "/" then clean_loop rooted t' out dotdot
      else copy_rest rooted t' (out +:+ String c' "") dotdot
  end.

(** [path.Clean] *)
Definition Clean (p : string) : string :=
  match p with
  | EmptyString => "."
  | String c t =>
      let out :=
        if Ascii.eqb c "/"
        then (* rooted: out.append('/'); r, dotdot = 1, 1 *)
          clean_loop true t "/" 1
        else clean_loop false p "" 0 in
      (* Turn empty string into "." *)
      if Nat.eqb (String.length out) 0 then "." else out
  end.

(** [path.Join] (variadic): the first non-empty element starts the
    joined path. *)
Fixpoint Join (elem : list string) : string :=
  match elem with
  | [] => ""
  | e :: rest =>
      if bool_decide (e = "") then Join rest
      else Clean (strings_Join elem "/")
  end.

(** [path.Split]: [path[:i+1]], [path[i+1:]] for [i] the last slash. *)
Definition Split (p : string) : string * string :=
  match lastSlash p with
  | Some i => (String.substring 0 (S i) p,
               String.substring (S i) (String.length p - S i) p)
  | None => ("", p)
  end.

(** [path.Dir] *)
Definition Dir (p : string) : string := Clean (fst (Split p)).

End path.

(** ** [Clean], element by element *)

Module path_elements.
Import GoString path.

(** The elements of a path, cut at every slash: the first one and the
    others. [a//b/] has the elements [a], the empty one, [b] and the empty
    one. *)
Fixpoint elements (s : string) : string * list string :=
  match s with
  | EmptyString => ("", [])
  | String c t =>
      let '(e, l) := elements t in
      if Ascii.eqb c "/" then ("", e :: l) else (String c e, l)
  end.

(** What [Clean] does on a [..] element with the written part of the
    buffer and [dotdot]. *)
Definition dotdot_step (rooted : bool) (out : string) (dotdot : nat)
  : string * nat :=
  if bool_decide (dotdot < String.length out) then
    (String.substring 0 (backtrack out dotdot (String.length out - 1)) out,
     dotdot)
  else if negb rooted then
    let out2 :=
      (if bool_decide (0 < String.length out) then out +:+ "/" else out)
      +:+ ".." in
    (out2, String.length out2)
  else (out, dotdot).

(** What [Clean] does with one element. *)
Definition elem_step (rooted : bool) (st : string * nat) (e : string)
  : string * nat :=
  if bool_decide (e = "") || bool_decide (e = ".") then st
  else if bool_decide (e = "..") then dotdot_step rooted st.1 st.2
  else (add_slash rooted st.1 +:+ e, st.2).

(** The state [Clean] starts its loop in. *)
Definition start (rooted : bool) : string * nat :=
  if rooted then ("/", 1) else ("", 0).

(** Whether [Clean] takes the path as rooted, and the state its loop
    ends in, element by element. *)
Definition clean_state (p : string) : bool * (string * nat) :=
  match p with
  | EmptyString => (false, start false)
  | String c t =>
      let rooted := Ascii.eqb c "/" in
      let '(e, l) := elements (if rooted then t else p) in
      (rooted, fold_left (elem_step rooted) (e :: l) (start rooted))
  end.

(** [Clean], element by element. *)
Definition Clean_elements (p : string) : string :=
  let out := (clean_state p).2.1 in
  if Nat.eqb (String.length out) 0 then "." else out.

(** [s[1:]], or the empty string *)
Definition stail (s : string) : string :=
  match s with
  | String _ t => t
  | EmptyString => ""
  end.

(** No byte of [s] is a slash. *)
Fixpoint no_slash (s : string) : bool :=
  match s with
  | EmptyString => true
  | String c t => negb (Ascii.eqb c "/") && no_slash t
  end.

(** A name: an element that [Clean] keeps as it is. *)
Definition name (e : string) : Prop :=
  e ≠ "" ∧ e ≠ "." ∧ e ≠ ".." ∧ no_slash e = true.

(** The shape of what [Clean] writes: a slash if the path is rooted, then
    [k] elements [..] (none under a root), then names, with a slash
    between two elements. *)
Definition shape (rooted : bool) (k : nat) (es : list string) : string :=
  (if rooted then "/" else "") +:+ strings_Join (replicate k ".." ++ es) "/".

(** The value of [dotdot] that goes with a shape. *)
Definition dotdot_of (rooted : bool) (k : nat) : nat :=
  if rooted then 1 else String.length (strings_Join (replicate k "..") "/").

(** The state of the loop is that of a shape. *)
Definition shaped (rooted : bool) (st : string * nat) : Prop :=
  ∃ k es, st = (shape rooted k es, dotdot_of rooted k) ∧
          Forall name es ∧ (rooted = true → k = 0).

(** What [Clean] returns for a shape: the shape, or [.] for the empty
    one. *)
Definition cleaned (rooted : bool) (k : nat) (es : list string) : string :=
  if Nat.eqb (String.length (shape rooted k es)) 0 then "."
  else shape rooted k es.

End path_elements.

(** ** The file system behind package [os]

    A flat store from names to nodes, with no symbolic links and no
    permissions. Names are taken as they are given: the program passes
    only results of [path.Clean], [path.Join] and [path.Dir], and prefixes
    of those cut at a separator. The root, the working directory and the
    chains [..], [../..] above it are directories that always exist.
    [clock] is the time the next change is stamped with and [free] the
    number of bytes the device still accepts, so that a write can fall
    short. *)

Module os.
Import GoString.

Inductive Errno := ENOENT | EEXIST | ENOTDIR | EISDIR | ENOSPC.

(** Go error values: [errors.New(msg)] and [*os.PathError]. *)
Inductive GoError :=
| ErrorString (msg : string)
| PathError (op path : string) (err : Errno).

(** The interface type [error]; [nil] is [None]. *)
Definition error : Type := option GoError.

Inductive node :=
| File (content : list byte) (mtime : nat)
| Directory.

Record FS := mkFS {
  nodes : gmap string node;
  clock : nat;
  free : nat
}.

Global Instance Errno_eq_dec : EqDecision Errno.
Proof. solve_decision. Defined.
Global Instance GoError_eq_dec : EqDecision GoError.
Proof. solve_decision. Defined.
Global Instance byte_eq_dec : EqDecision byte := Byte.byte_eq_dec.
Global Instance node_eq_dec : EqDecision node.
Proof. solve_decision. Defined.

(** [..], [../..], ... *)
Fixpoint dotdots (p : string) : bool :=
  match p with
  | String a (String b t) =>
      Ascii.eqb a "." && Ascii.eqb b "." &&
      match t with
      | EmptyString => true
      | String c t' => Ascii.eqb c "/" && dotdots t'
      end
  | _ => false
  end.

Definition always_dir (p : string) : bool :=
  bool_decide (p = "/") || bool_decide (p = ".") || dotdots p.

(** [os.Stat] and [os.Lstat]: [None] when the call returns an error. *)
Definition Stat (fs : FS) (p : string) : option node :=
  if always_dir p then Some Directory else nodes fs !! p.

Definition IsPathSeparator (c : ascii) : bool := Ascii.eqb c "/".

(** [for i > 0 && p(path[i-1]) { i-- }] *)
Fixpoint scan_back (p : ascii → bool) (path : string) (i : nat) : nat :=
  match i with
  | 0 => 0
  | S i' => if p (byte_at path i') then scan_back p path i' else i
  end.

(** The name of the directory that holds [path], as [MkdirAll] finds
    it: skip the trailing separators, scan backward over the last
    element, and take [path[:j-1]] when [j > 1]. [None] when the holder
    is the root or the working directory. *)
Definition parent_of (path : string) : option string :=
  let i := scan_back IsPathSeparator path (String.length path) in
  let j := scan_back (λ c, negb (IsPathSeparator c)) path i in
  if bool_decide (1 < j) then Some (String.substring 0 (j - 1) path)
  else None.

(** What the system says of the directory that is to hold a new entry. *)
Definition holder_errno (fs : FS) (p : string) : option Errno :=
  match parent_of p with
  | None => None
  | Some q =>
      match Stat fs q with
      | Some Directory => None
      | Some (File _ _) => Some ENOTDIR
      | None => Some ENOENT
      end
  end.

Definition put (p : string) (n : node) (fs : FS) : FS :=
  {| nodes := <[p := n]> (nodes fs); clock := S (clock fs); free := free fs |}.

(** [os.Mkdir] *)
Definition Mkdir (p : string) (fs : FS) : error * FS :=
  if bool_decide (p = "") then (Some (PathError "mkdir" p ENOENT), fs)
  else
    match Stat fs p with
    | Some _ => (Some (PathError "mkdir" p EEXIST), fs)
    | None =>
        match holder_errno fs p with
        | Some e => (Some (PathError "mkdir" p e), fs)
        | None => (None, put p Directory fs)
        end
    end.

Lemma scan_back_le p path i : scan_back p path i ≤ i.
Proof. induction i as [|i IH]; simpl; [lia|]. destruct (p _); lia. Qed.

Lemma substring_length_le n m s :
  String.length (String.substring n m s) ≤ m.
Proof.
  revert n m. induction s as [|c s IH]; intros [|n] [|m]; simpl; try lia.
  - specialize (IH 0 m). lia.
  - apply (IH n 0).
  - apply (IH n (S m)).
Qed.

(** The recursion of [MkdirAll] ends: the holder's name is shorter. *)
Lemma parent_of_shorter path q :
  parent_of path = Some q → String.length q < String.length path.
Proof.
  unfold parent_of. case_bool_decide as Hj; [|done]. intros [= <-].
  set (i := scan_back IsPathSeparator path (String.length path)) in *.
  set (j := scan_back (λ c, negb (IsPathSeparator c)) path i) in *.
  pose proof (substring_length_le 0 (j - 1) path).
  pose proof (scan_back_le (λ c, negb (IsPathSeparator c)) path i).
  pose proof (scan_back_le IsPathSeparator path (String.length path)).
  lia.
Qed.

Definition inspect {A} (a : A) : {b | a = b} := exist _ a eq_refl.

(** The end of [MkdirAll]: [Mkdir], and on its failure a second look
    with [Lstat], for arguments like [foo/.]. *)
Definition mkdir_last (path : string) (fs : FS) : error * FS :=
  match Mkdir path fs with
  | (Some e, fs') =>
      match Stat fs' path with
      | Some Directory => (None, fs')
      | _ => (Some e, fs')
      end
  | (None, fs') => (None, fs')
  end.

(** [os.MkdirAll] *)
Equations? MkdirAll (path : string) (fs : FS) : error * FS
  by wf (String.length path) lt :=
  MkdirAll path fs with Stat fs path => {
    (* Fast path: path is known to be a directory or a file. *)
    | Some Directory := (None, fs);
    | Some (File _ _) := (Some (PathError "mkdir" path ENOTDIR), fs);
    (* Slow path: make sure parent exists and then call Mkdir. *)
    | None with inspect (parent_of path) => {
        | exist _ (Some parent) Hp with MkdirAll parent fs => {
            | (Some e, fs') := (Some e, fs');
            | (None, fs') := mkdir_last path fs' };
        | exist _ None _ := mkdir_last path fs } }.
Proof. by apply parent_of_shorter. Qed.

(** The directories above [path], nearest first: the names the recursion
    of [MkdirAll] goes through. *)
Equations? ancestors (path : string) : list string
  by wf (String.length path) lt :=
  ancestors path with inspect (parent_of path) => {
    | exist _ (Some parent) Hp := parent :: ancestors parent;
    | exist _ None _ := [] }.
Proof. by apply parent_of_shorter. Qed.

(** Every entry of the store lies in a directory. *)
Definition tree_like (fs : FS) : Prop :=
  ∀ p n q, nodes fs !! p = Some n → parent_of p = Some q →
           Stat fs q = Some Directory.

(** [os.OpenFile(name, O_WRONLY|O_CREATE|O_TRUNC, perm)]: an existing
    file is cut to length zero, which gives its bytes back to the
    device; a missing one is created empty. *)
Definition OpenFile_trunc (name : string) (fs : FS) : error * FS :=
  if bool_decide (name = "") then (Some (PathError "open" name ENOENT), fs)
  else
    match Stat fs name with
    | Some Directory => (Some (PathError "open" name EISDIR), fs)
    | Some (File old _) =>
        (None, {| nodes := <[name := File [] (clock fs)]> (nodes fs);
                  clock := S (clock fs);
                  free := free fs + length old |})
    | None =>
        match holder_errno fs name with
        | Some e => (Some (PathError "open" name e), fs)
        | None => (None, put name (File [] (clock fs)) fs)
        end
    end.

(** [f.Write(data)] on a file just opened by [OpenFile_trunc]: the
    device takes what it has room for; [n] is the count written. *)
Definition Write (name : string) (data : list byte) (fs : FS)
  : nat * error * FS :=
  let written := take (free fs) data in
  let n := length written in
  let fs' := {| nodes := <[name := File written (clock fs)]> (nodes fs);
                clock := S (clock fs);
                free := free fs - n |} in
  (n, if bool_decide (n < length data)
      then Some (PathError "write" name ENOSPC) else None, fs').

(** [ioutil.WriteFile]: open with truncation, write, close. *)
Definition WriteFile (filename : string) (data : list byte) (fs : FS)
  : error * FS :=
  match OpenFile_trunc filename fs with
  | (Some e, fs') => (Some e, fs')
  | (None, fs1) =>
      let '(n, err, fs2) := Write filename data fs1 in
      let err :=
        match err with
        | None => if bool_decide (n < length data)
                  then Some (ErrorString "short write") else None
        | Some e => Some e
        end in
      (* f.Close() succeeds *)
      (err, fs2)
  end.

(** [ioutil.ReadFile] *)
Definition ReadFile (filename : string) (fs : FS) : list byte * error :=
  match Stat fs filename with
  | Some (File content _) => (content, None)
  | Some Directory => ([], Some (PathError "read" filename EISDIR))
  | None => ([], Some (PathError "open" filename ENOENT))
  end.

End os.

(** ** The wiki: configuration, pages, the page store *)

Module wiki.
Import GoString os.

Definition FileExtension : string := ".md".

Record Git := { url : string; push : bool }.
Record Csrf := { keyfile : string; insecure : bool; key : list byte }.
Record Listen := { address : string; network : string }.

Record Config := {
  listen : Listen;
  data : string;
  brand : string;
  bind : string;
  git : Git;
  csrf : Csrf;
  indexdir : string
}.

(** [time.Time] is a count of clock ticks; the zero time is [0]. *)
Record Page := {
  Title : string;
  Body : list byte;
  HTML : string;
  Brand : string;
  Date : nat
}.

(** What a call comes to: it returns, or the goroutine panics. *)
Inductive outcome (A : Type) :=
| Returns (a : A)
| Panics (msg : string).
Global Arguments Returns {A} a.
Global Arguments Panics {A} msg.

Definition path_escape : GoError := ErrorString "File in wrong directory".

(** make sure user input path does not leave the directory *)
Definition mkSubDir (dir file : string) (fs : FS) : outcome error * FS :=
  let d := path.Clean dir in
  let sd := path.Dir (path.Clean (path.Join [d; file])) in
  match slice sd 0 (String.length d) with
  | None => (Panics "slice bounds out of range", fs)
  | Some pre =>
      if bool_decide (pre ≠ d) then (Returns (Some path_escape), fs)
      else
        let '(err, fs') := MkdirAll sd fs in
        (Returns err, fs')
  end.

(** [(p *Page) Save] *)
Definition Save (p : Page) (datadir : string) (fs : FS)
  : outcome error * FS :=
  let filename := Title p +:+ FileExtension in
  let filepath := path.Join [datadir; filename] in
  match mkSubDir datadir filename fs with
  | (Panics msg, fs') => (Panics msg, fs')
  | (Returns (Some err), fs') => (Returns (Some err), fs')
  | (Returns None, fs') =>
      let '(err, fs'') := WriteFile filepath (Body p) fs' in
      (Returns err, fs'')
  end.

Section Server.
(** The markup pipeline is outside the page store: [AutoCamelCase]
    (another file of the wiki), [blackfriday.Run] and
    [bluemonday.UGCPolicy().SanitizeBytes]. *)
Variable AutoCamelCase : list byte → string → list byte.
Variable blackfriday_Run : list byte → list byte.
Variable SanitizeBytes : list byte → list byte.

(** [LoadPage]; [baseurl] is [baseurl.String()]. Each [return] sets
    exactly one of the page and the error. *)
Definition LoadPage (title : string) (config : Config) (baseurl : string)
    (fs : FS) : Page + GoError :=
  let filename := path.Join [data config; title +:+ FileExtension] in
  match ReadFile filename fs with
  | (_, Some err) => inr err
  | (body, None) =>
      match Stat fs filename with
      | None => inr (PathError "stat" filename ENOENT)
      | Some fi =>
          let mtime := match fi with File _ t => t | Directory => 0 end in
          let markdown := AutoCamelCase body baseurl in
          let unsafe := blackfriday_Run markdown in
          let html := SanitizeBytes unsafe in
          inl {| Title := title;
                 Body := body;
                 HTML := string_of_list_byte html;
                 Brand := brand config;
                 Date := mtime |}
      end
  end.

(** *** The server and its handlers *)

(** Package [net/url] and the template set ([Templates], another file
    of the wiki) are taken as they come: [url_Parse] gives [None] for
    [(nil, err)], and [Exec] gives the buffer ([None] for a nil one)
    next to the error. *)
Variable URL : Type.
Variable url_Parse : string → option URL.
Variable ResolveReference : URL → URL → URL.
Variable URL_String : URL → string.
Variable Exec : string → Page → option string * error.

(** [err.Error()] *)
Definition Errno_text (e : Errno) : string :=
  match e with
  | ENOENT => "no such file or directory"
  | EEXIST => "file exists"
  | ENOTDIR => "not a directory"
  | EISDIR => "is a directory"
  | ENOSPC => "no space left on device"
  end.

Definition Error (e : GoError) : string :=
  match e with
  | ErrorString msg => msg
  | PathError op p err => op +:+ " " +:+ p +:+ ": " +:+ Errno_text err
  end.

(** Calls on the [http.ResponseWriter], in the order they are made. *)
Inductive Effect :=
| http_Error (msg : string) (code : nat)
| http_Redirect (target : string) (code : nat)
| WriteTo (buf : string).

Definition StatusFound : nat := 302.
Definition StatusInternalServerError : nat := 500.

(** Modelled from the spec: a [Commit] is a version-control revision
    that captures one page write; the repository is the history of
    commits, newest first. No function of the server that is at hand
    creates one. *)
Record Commit := { commit_title : string; commit_body : list byte }.

(** What a request can change: the data directory, the counters, the
    response, and (modelled from the spec) the commit history and the
    search index, which maps a title to the body it was indexed
    with. *)
Record World := {
  w_fs : FS;
  w_counters : gmap string Z;
  w_commits : list Commit;
  w_index : gmap string (list byte);
  w_resp : list Effect
}.

Definition set_fs (fs : FS) (w : World) : World :=
  {| w_fs := fs; w_counters := w_counters w; w_commits := w_commits w;
     w_index := w_index w; w_resp := w_resp w |}.

Definition respond (e : Effect) (w : World) : World :=
  {| w_fs := w_fs w; w_counters := w_counters w; w_commits := w_commits w;
     w_index := w_index w; w_resp := w_resp w ++ [e] |}.

(** [(c *Counters) Inc]: [GetOrRegisterCounter(name, c.r).Inc(1)] *)
Definition Inc (name : string) (w : World) : World :=
  {| w_fs := w_fs w;
     w_counters := <[name := (default 0 (w_counters w !! name) + 1)%Z]>
                     (w_counters w);
     w_commits := w_commits w; w_index := w_index w; w_resp := w_resp w |}.

(** A sum of [int64] values as [atomic.AddInt64] leaves it, wrapped into
    the range from [-2^63] up to [2^63 - 1]. *)
Definition int64 (z : Z) : Z := ((z + 2 ^ 63) `mod` 2 ^ 64 - 2 ^ 63)%Z.

(** [(c *StandardCounter) Inc(i)]: [atomic.AddInt64(&c.count, i)] *)
Definition Counter_Inc (i count : Z) : Z := int64 (count + i).

(** [(c *StandardCounter) Dec(i)]: [atomic.AddInt64(&c.count, -i)] *)
Definition Counter_Dec (i count : Z) : Z := int64 (count + int64 (- i)).

(** [metrics.GetOrRegisterCounter(name, c.r)] followed by a method of the
    counter: a name that is not registered yet gets a new counter, which
    starts at zero. *)
Definition with_counter (name : string) (f : Z → Z) (w : World) : World :=
  {| w_fs := w_fs w;
     w_counters := <[name := f (default 0%Z (w_counters w !! name))]>
                     (w_counters w);
     w_commits := w_commits w; w_index := w_index w; w_resp := w_resp w |}.

(** [(c *Counters) Dec] *)
Definition Dec (name : string) (w : World) : World :=
  with_counter name (Counter_Dec 1) w.

(** [(c *Counters) IncBy] *)
Definition IncBy (name : string) (n : Z) (w : World) : World :=
  with_counter name (Counter_Inc n) w.

(** [(c *Counters) DecBy] *)
Definition DecBy (name : string) (n : Z) (w : World) : World :=
  with_counter name (Counter_Dec n) w.

Record Server := { config : Config }.

(** [*http.Request]: its URL, what [ParseForm] returns, and the form. *)
Record Request := {
  req_URL : URL;
  ParseForm : error;
  Form : list (string * list string)
}.

(** [r.Form.Get(key)]: the first value of the key, or the empty
    string. *)
Fixpoint Form_Get (form : list (string * list string)) (k : string)
  : string :=
  match form with
  | [] => ""
  | (k', vs) :: rest =>
      if bool_decide (k' = k) then default "" (head vs)
      else Form_Get rest k
  end.

(** [httprouter.Params] and [ByName] *)
Definition Params : Type := list (string * string).

Fixpoint ByName (ps : Params) (name : string) : string :=
  match ps with
  | [] => ""
  | (k, v) :: rest => if bool_decide (k = name) then v else ByName rest name
  end.

Definition nil_dereference : string :=
  "invalid memory address or nil pointer dereference".

(** [(s *Server) render]: neither error branch returns. *)
Definition render (name : string) (ctx : Page) (w : World)
  : outcome unit * World :=
  let '(buf, err) := Exec name ctx in
  let w :=
    match err with
    | Some e => respond (http_Error (Error e) StatusInternalServerError) w
    | None => w
    end in
  match buf with
  | None => (Panics nil_dereference, w)
  | Some b => (Returns tt, respond (WriteTo b) w)
  end.

(** [u, err := url.Parse(raw)] followed by
    [if err != nil { http.Error(...) }] with no [return], and then by
    [r.URL.ResolveReference(u)]: with a nil [u] the call panics. *)
Definition parse_and_resolve (r : Request) (raw : string) (w : World)
  : outcome URL * World :=
  match url_Parse raw with
  | Some u => (Returns (ResolveReference (req_URL r) u), w)
  | None =>
      (Panics nil_dereference,
       respond (http_Error "Internal Error" StatusInternalServerError) w)
  end.

(** [IndexHandler]; [fmt.Sprintf] of a format with no verb is the
    format. *)
Definition IndexHandler (s : Server) (r : Request) (p : Params) (w : World)
  : outcome unit * World :=
  let w := Inc "n_index" w in
  match parse_and_resolve r "./view/FrontPage" w with
  | (Panics msg, w) => (Panics msg, w)
  | (Returns u, w) =>
      (Returns tt, respond (http_Redirect (URL_String u) StatusFound) w)
  end.

(** [EditHandler] *)
Definition EditHandler (s : Server) (r : Request) (p : Params) (w : World)
  : outcome unit * World :=
  let w := Inc "n_edit" w in
  let title := TrimLeft_slash (ByName p "title") in
  match parse_and_resolve r "/view/" w with
  | (Panics msg, w) => (Panics msg, w)
  | (Returns baseurl, w) =>
      let page :=
        match LoadPage title (config s) (URL_String baseurl) (w_fs w) with
        | inl page => page
        | inr _ =>
            {| Title := title; Body := []; HTML := "";
               Brand := brand (config s); Date := 0 |}
        end in
      render "edit" page w
  end.

(** [SaveHandler] *)
Definition SaveHandler (s : Server) (r : Request) (p : Params) (w : World)
  : outcome unit * World :=
  let w := Inc "n_save" w in
  let title := TrimLeft_slash (ByName p "title") in
  match ParseForm r with
  | Some _ =>
      (Returns tt,
       respond (http_Error "Internal Error" StatusInternalServerError) w)
  | None =>
      let body := Form_Get (Form r) "body" in
      let page := {| Title := title; Body := list_byte_of_string body;
                     HTML := ""; Brand := brand (config s); Date := 0 |} in
      match Save page (data (config s)) (w_fs w) with
      | (Panics msg, fs') => (Panics msg, set_fs fs' w)
      | (Returns (Some err), fs') =>
          (Returns tt,
           respond (http_Error (Error err) StatusInternalServerError)
             (set_fs fs' w))
      | (Returns None, fs') =>
          let w := set_fs fs' w in
          match parse_and_resolve r ("/view/" +:+ title) w with
          | (Panics msg, w) => (Panics msg, w)
          | (Returns u, w) =>
              (Returns tt,
               respond (http_Redirect (URL_String u) StatusFound) w)
          end
      end
  end.

(** [ViewHandler] *)
Definition ViewHandler (s : Server) (r : Request) (p : Params) (w : World)
  : outcome unit * World :=
  let w := Inc "n_view" w in
  let title := TrimLeft_slash (ByName p "title") in
  match parse_and_resolve r "/view/" w with
  | (Panics msg, w) => (Panics msg, w)
  | (Returns baseurl, w) =>
      match LoadPage title (config s) (URL_String baseurl) (w_fs w) with
      | inr _ =>
          match parse_and_resolve r ("/edit/" +:+ title) w with
          | (Panics msg, w) => (Panics msg, w)
          | (Returns u, w) =>
              (Returns tt,
               respond (http_Redirect (URL_String u) StatusFound) w)
          end
      | inl page => render "view" page w
      end
  end.

End Server.

Global Arguments req_URL {URL} _.
Global Arguments ParseForm {URL} _.
Global Arguments Form {URL} _.

End wiki.

(** ** Definitions the statements below are written with *)

Module statements.
Import GoString os wiki.

(** The directory [mkSubDir] checks and makes: [sd] in the source. *)
Definition subdir_of (dir file : string) : string :=
  path.Dir (path.Clean (path.Join [path.Clean dir; file])).

(** The file a page is kept in: [filepath] in [Save], [filename] in
    [LoadPage]. *)
Definition page_path (datadir title : string) : string :=
  path.Join [datadir; title +:+ FileExtension].

(** [&Page{Title: title, Body: body, Brand: brand}] *)
Definition new_page (title : string) (body : list byte) (brand0 : string)
  : Page :=
  {| Title := title; Body := body; HTML := ""; Brand := brand0; Date := 0 |}.

(** [fs'] is [fs] with directories added and time passed: no entry of
    [fs] is changed or removed, and the device has as much room. *)
Definition grows (fs fs' : FS) : Prop :=
  (∀ p, nodes fs' !! p = nodes fs !! p ∨
        (nodes fs !! p = None ∧ nodes fs' !! p = Some Directory)) ∧
  clock fs ≤ clock fs' ∧ free fs' = free fs.

(** In the words of the specification: the normalized directory [dir] is
    equal to or a descendant of the normalized root, taken element by
    element (for a root that is a rooted path). *)
Definition inside_root (root dir : string) : bool :=
  bool_decide (dir = root) ||
  String.prefix (if bool_decide (root = "/") then root else root +:+ "/") dir.

(** [q] is no regular file: it is a directory, or it is not there. *)
Definition no_file (fs : FS) (q : string) : Prop :=
  match Stat fs q with
  | Some (File _ _) => False
  | _ => True
  end.

Global Instance no_file_dec fs q : Decision (no_file fs q).
Proof. unfold no_file. destruct (Stat fs q) as [[]|]; apply _. Defined.

End statements.

(** ** The handlers put to work

    To run the handlers, the collaborators are given a plain reading,
    meant for rooted references that are a path alone, such as
    [/edit/Title]: no scheme, host, query or fragment, and no byte that
    [String] would escape. A URL is kept as its text. [url.Parse] refuses
    an invalid percent escape (its [unescape] step: a [%] that is not
    followed by two hexadecimal digits) and accepts the rest; resolving a
    rooted reference against the URL of a request, which has a path only,
    gives the reference; [String] gives the text back. The markup
    pipeline leaves the body as it is, and a template prints its name and
    the title of the page. *)

Module rooted.
Import GoString os wiki.

Definition ishex (c : ascii) : bool :=
  let n := nat_of_ascii c in
  (bool_decide (48 ≤ n) && bool_decide (n ≤ 57)) ||
  (bool_decide (97 ≤ n) && bool_decide (n ≤ 102)) ||
  (bool_decide (65 ≤ n) && bool_decide (n ≤ 70)).

Fixpoint valid_escapes (s : string) : bool :=
  match s with
  | EmptyString => true
  | String c t =>
      if Ascii.eqb c "%" then
        match t with
        | String h1 (String h2 t') => ishex h1 && ishex h2 && valid_escapes t'
        | _ => false
        end
      else valid_escapes t
  end.

Definition url_Parse (raw : string) : option string :=
  if valid_escapes raw then Some raw else None.

Definition ResolveReference (base ref : string) : string := ref.

Definition URL_String (u : string) : string := u.

Definition AutoCamelCase (body : list byte) (baseurl : string) : list byte :=
  body.

Definition Exec (name : string) (ctx : Page) : option string * error :=
  (Some (name +:+ " " +:+ Title ctx), None).

Definition LoadPage := wiki.LoadPage AutoCamelCase id id.

Definition EditHandler :=
  wiki.EditHandler AutoCamelCase id id string url_Parse ResolveReference
    URL_String Exec.

Definition SaveHandler :=
  wiki.SaveHandler string url_Parse ResolveReference URL_String.

Definition ViewHandler :=
  wiki.ViewHandler AutoCamelCase id id string url_Parse ResolveReference
    URL_String Exec.

Definition config0 : Config :=
  {| listen := {| address := ""; network := "" |};
     data := "/data"; brand := "Wiki"; bind := "0.0.0.0:8000";
     git := {| url := ""; push := false |};
     csrf := {| keyfile := ""; insecure := false; key := [] |};
     indexdir := "/index" |}.

Definition server0 : Server := {| config := config0 |}.

(** A data directory that holds no page yet, at time 5, on a device with
    room for 100 bytes. *)
Definition fs0 : FS :=
  {| nodes := {[ "/data" := Directory ]}; clock := 5; free := 100 |}.

Definition world0 : World :=
  {| w_fs := fs0; w_counters := ∅; w_commits := []; w_index := ∅;
     w_resp := [] |}.

(** A request to [path] with [body] in its form. *)
Definition request (path body : string) : Request string :=
  {| req_URL := path; ParseForm := None; Form := [("body", [body])] |}.

End rooted.

(** * Facts about strings *)

Module GoString_facts.
Import GoString.

Lemma sapp_cons c s t : String c s +:+ t = String c (s +:+ t).
Proof. reflexivity. Qed.

Lemma sapp_nil_r s : s +:+ "" = s.
Proof. induction s as [|c s IH]; [done|]. by rewrite sapp_cons, IH. Qed.

Lemma sapp_assoc s t u : (s +:+ t) +:+ u = s +:+ (t +:+ u).
Proof. induction s as [|c s IH]; [done|]. by rewrite !sapp_cons, IH. Qed.

Lemma length_sapp s t :
  String.length (s +:+ t) = String.length s + String.length t.
Proof. induction s as [|c s IH]; [done|]. rewrite sapp_cons. simpl. by rewrite IH. Qed.

Lemma length_0 s : String.length s = 0 → s = "".
Proof. by destruct s. Qed.

Lemma byte_at_app_r s t i :
  byte_at (s +:+ t) (String.length s + i) = byte_at t i.
Proof. unfold byte_at. by rewrite Nat.add_comm, <- append_correct2. Qed.

Lemma substring_app_l s t : String.substring 0 (String.length s) (s +:+ t) = s.
Proof.
  induction s as [|c s IH]; [by destruct t|]. rewrite sapp_cons. simpl.
  by rewrite IH.
Qed.

Lemma substring_all s : String.substring 0 (String.length s) s = s.
Proof. rewrite <- (sapp_nil_r s) at 2. apply substring_app_l. Qed.

Lemma prefix_app a b : String.prefix a (a +:+ b) = true.
Proof. apply prefix_correct, substring_app_l. Qed.

End GoString_facts.

(** * Facts about package [path] *)

Module path_facts.
Import GoString path path_elements GoString_facts.

(** The table of Go's own test of [Clean]. *)
Example Clean_table :
  Forall (λ io, Clean io.1 = io.2)
    [ (* Already clean *)
      ("", "."); ("abc", "abc"); ("abc/def", "abc/def"); ("a/b/c", "a/b/c");
      (".", "."); ("..", ".."); ("../..", "../.."); ("../../abc", "../../abc");
      ("/abc", "/abc"); ("/", "/");
      (* Remove trailing slash *)
      ("abc/", "abc"); ("abc/def/", "abc/def"); ("a/b/c/", "a/b/c");
      ("./", "."); ("../", ".."); ("../../", "../.."); ("/abc/", "/abc");
      (* Remove doubled slash *)
      ("abc//def//ghi", "abc/def/ghi"); ("//abc", "/abc"); ("///abc", "/abc");
      ("//abc//", "/abc"); ("abc//", "abc");
      (* Remove . elements *)
      ("abc/./def", "abc/def"); ("/./abc/def", "/abc/def"); ("abc/.", "abc");
      (* Remove .. elements *)
      ("abc/def/ghi/../jkl", "abc/def/jkl");
      ("abc/def/../ghi/../jkl", "abc/jkl");
      ("abc/def/..", "abc"); ("abc/def/../..", "."); ("/abc/def/../..", "/");
      ("abc/def/../../..", ".."); ("/abc/def/../../..", "/");
      ("abc/def/../../../ghi/jkl/../../../mno", "../../mno");
      (* Combinations *)
      ("abc/./../def", "def"); ("abc//./../def", "def");
      ("abc/../../././../def", "../../def") ].
Proof. repeat constructor. Qed.

(** The tables of Go's tests of [Join] and of [Dir]. *)
Example Join_table :
  Forall (λ io, Join io.1 = io.2)
    [ ([], ""); ([""], ""); (["a"], "a"); (["a"; "b"], "a/b");
      (["a"; ""], "a"); ([""; "b"], "b"); (["/"; "a"], "/a");
      (["/"; ""], "/"); (["a/"; "b"], "a/b"); (["a/"; ""], "a");
      ([""; ""], "") ].
Proof. repeat constructor. Qed.

Example Dir_table :
  Forall (λ io, Dir io.1 = io.2)
    [ ("", "."); (".", "."); ("/.", "/"); ("/", "/"); ("////", "/");
      ("/foo", "/"); ("x/", "x"); ("abc", "."); ("abc/def", "abc");
      ("abc////def", "abc"); ("a/b/.x", "a/b"); ("a/b/c.", "a/b");
      ("a/b/c.x", "a/b") ].
Proof. repeat constructor. Qed.

(** ** The loop of [Clean] and the elements of a path *)

Lemma elements_cons c t :
  elements (String c t) =
    if Ascii.eqb c "/" then ("", (elements t).1 :: (elements t).2)
    else (String c (elements t).1, (elements t).2).
Proof. simpl. by destruct (elements t). Qed.

Lemma elem_end_elements t : elem_end t = bool_decide ((elements t).1 = "").
Proof.
  destruct t as [|c t]; [done|]. rewrite elements_cons. simpl.
  by destruct (Ascii.eqb c "/").
Qed.

(** One round of the loop of [Clean], told by the element it starts. *)
Lemma clean_loop_cons rooted c t out dd :
  clean_loop rooted (String c t) out dd =
    if Ascii.eqb c "/" then clean_loop rooted t out dd
    else
      let e := String c (elements t).1 in
      if bool_decide (e = ".") then clean_loop rooted t out dd
      else if bool_decide (e = "..") then
        clean_loop rooted (stail t) (dotdot_step rooted out dd).1
          (dotdot_step rooted out dd).2
      else copy_rest rooted t (add_slash rooted out +:+ String c "") dd.
Proof.
  cbn [clean_loop]. destruct (Ascii.eqb_spec c "/") as [->|Hslash]; [done|].
  cbv zeta. destruct (Ascii.eqb_spec c ".") as [->|Hdot]; cbn [andb].
  - rewrite elem_end_elements. destruct t as [|c1 t2]; [done|].
    rewrite elements_cons.
    destruct (Ascii.eqb_spec c1 "/") as [->|Hslash1]; [done|]. cbn [fst].
    rewrite (bool_decide_eq_false_2 (String c1 _ = "")) by done.
    rewrite (bool_decide_eq_false_2 (String "." (String c1 _) = ".")) by done.
    destruct (Ascii.eqb_spec c1 ".") as [->|Hdot1]; cbn [andb].
    + rewrite elem_end_elements. case_bool_decide as He.
      * rewrite He. rewrite (bool_decide_eq_true_2 (".." = "..")) by done.
        unfold dotdot_step, stail. case_bool_decide; [done|].
        by destruct rooted.
      * rewrite bool_decide_eq_false_2; [done|]. intros [= ?]. done.
    + rewrite bool_decide_eq_false_2; [done|]. intros [= ?]. done.
  - rewrite (bool_decide_eq_false_2 (String c _ = ".")) by (intros [= ?]; done).
    rewrite (bool_decide_eq_false_2 (String c _ = "..")) by (intros [= ?]; done).
    by destruct t.
Qed.

Lemma elem_step_skip rooted st e :
  e = "" ∨ e = "." → elem_step rooted st e = st.
Proof. by intros [-> | ->]. Qed.

Lemma elem_step_real rooted st e :
  e ≠ "" → e ≠ "." → e ≠ ".." →
  elem_step rooted st e = (add_slash rooted st.1 +:+ e, st.2).
Proof.
  intros. unfold elem_step. by rewrite !bool_decide_eq_false_2 by done.
Qed.

(** The loop of [Clean] goes through the elements of the rest of the
    path; the inner loop first ends the element it is in. *)
Lemma clean_loop_elements rooted t :
  (∀ out dd,
     clean_loop rooted t out dd =
       (fold_left (elem_step rooted) ((elements t).1 :: (elements t).2)
          (out, dd)).1) ∧
  (∀ out dd,
     copy_rest rooted t out dd =
       (fold_left (elem_step rooted) (elements t).2
          (out +:+ (elements t).1, dd)).1) ∧
  (∀ out dd,
     clean_loop rooted (stail t) out dd =
       (fold_left (elem_step rooted)
          ((elements (stail t)).1 :: (elements (stail t)).2) (out, dd)).1).
Proof.
  induction t as [|c t (IHl & IHc & IHt)].
  { split_and!; intros out dd; simpl; by rewrite ?sapp_nil_r. }
  split_and!; [| |exact IHl].
  - intros out dd. rewrite clean_loop_cons, elements_cons.
    destruct (Ascii.eqb_spec c "/") as [->|Hslash]; [by rewrite IHl|].
    cbv zeta. cbn [fst snd fold_left].
    case_bool_decide as He1; [|case_bool_decide as He2].
    + injection He1 as -> He1. rewrite IHl, He1. done.
    + injection He2 as -> He2. rewrite IHt. rewrite He2.
      destruct t as [|c1 t2]; [done|]. rewrite elements_cons in He2 |- *.
      destruct (Ascii.eqb_spec c1 "/") as [->|]; [done|].
      injection He2 as -> He2. cbn [stail fst snd]. rewrite He2.
      change (elem_step rooted (out, dd) "..") with (dotdot_step rooted out dd).
      cbn [fold_left]. rewrite elem_step_skip by auto.
      by destruct (dotdot_step rooted out dd).
    + rewrite IHc, elem_step_real by done. by rewrite sapp_assoc.
  - intros out dd. rewrite elements_cons. cbn [copy_rest].
    destruct (Ascii.eqb c "/").
    + rewrite IHl. cbn [fst snd]. by rewrite sapp_nil_r.
    + rewrite IHc. cbn [fst snd]. by rewrite sapp_assoc.
Qed.

(** [Clean] is [Clean_elements]: the byte loop and the reading by elements
    agree on every path. *)
Theorem Clean_by_elements p : Clean p = Clean_elements p.
Proof.
  destruct p as [|c t]; [done|]. unfold Clean, Clean_elements, clean_state.
  destruct (Ascii.eqb c "/").
  - rewrite (proj1 (clean_loop_elements true t)). by destruct (elements t).
  - rewrite (proj1 (clean_loop_elements false (String c t))).
    by destruct (elements (String c t)).
Qed.

(** *** Clean paths *)

Lemma strings_Join_cons e l sep :
  l ≠ [] → strings_Join (e :: l) sep = e +:+ sep +:+ strings_Join l sep.
Proof. by destruct l. Qed.

Lemma strings_Join_snoc l e sep :
  l ≠ [] → strings_Join (l ++ [e]) sep = strings_Join l sep +:+ sep +:+ e.
Proof.
  induction l as [|a l IH]; [done|]. intros _. destruct l as [|b l].
  - done.
  - change ((a :: b :: l) ++ [e]) with (a :: ((b :: l) ++ [e])).
    rewrite !strings_Join_cons by done. rewrite IH by done.
    by rewrite !sapp_assoc.
Qed.

Lemma strings_Join_app l1 l2 sep :
  l1 ≠ [] → l2 ≠ [] →
  strings_Join (l1 ++ l2) sep =
    strings_Join l1 sep +:+ sep +:+ strings_Join l2 sep.
Proof.
  intros H1 H2. induction l1 as [|a l1 IH]; [done|]. destruct l1 as [|b l1].
  - simpl app. by rewrite strings_Join_cons.
  - change ((a :: b :: l1) ++ l2) with (a :: ((b :: l1) ++ l2)).
    rewrite !strings_Join_cons by done. rewrite IH by done.
    by rewrite !sapp_assoc.
Qed.

Lemma strings_Join_nonempty l sep :
  l ≠ [] → Forall (λ e, e ≠ "") l → strings_Join l sep ≠ "".
Proof.
  destruct l as [|a l]; [done|]. intros _ Hl. apply Forall_cons in Hl as [Ha _].
  destruct l; [done|]. rewrite strings_Join_cons by done. by destruct a.
Qed.

Lemma name_nonempty es : Forall name es → Forall (λ e, e ≠ "") es.
Proof. intros H. eapply Forall_impl; [done|]. by intros e (? & _). Qed.

Lemma elems_nonempty k es :
  Forall name es → Forall (λ e, e ≠ "") (replicate k ".." ++ es).
Proof.
  intros Hes. apply Forall_app. split; [|by apply name_nonempty].
  apply Forall_replicate. done.
Qed.

Lemma shape_empty k es :
  Forall name es →
  replicate k ".." ++ es = [] ↔ strings_Join (replicate k ".." ++ es) "/" = "".
Proof.
  intros Hes. split; [by intros ->|]. intros Hj.
  destruct (decide (replicate k ".." ++ es = [])) as [|Hne]; [done|].
  by destruct (strings_Join_nonempty _ "/" Hne (elems_nonempty k es Hes)).
Qed.


Lemma length_shape rooted k es :
  String.length (shape rooted k es) =
    (if rooted then 1 else 0) +
    String.length (strings_Join (replicate k ".." ++ es) "/").
Proof. unfold shape. rewrite length_sapp. by destruct rooted. Qed.

Lemma add_slash_shape rooted k es :
  Forall name es →
  add_slash rooted (shape rooted k es) =
    if bool_decide (replicate k ".." ++ es = []) then shape rooted k es
    else shape rooted k es +:+ "/".
Proof.
  intros Hes. unfold add_slash. rewrite length_shape.
  pose proof (shape_empty k es Hes) as Hem.
  destruct (strings_Join (replicate k ".." ++ es) "/") as [|c s] eqn:Hj.
  - rewrite bool_decide_eq_true_2 by by apply Hem. by destruct rooted.
  - rewrite bool_decide_eq_false_2 by (intros ?%Hem; done).
    destruct rooted; simpl; done.
Qed.

Lemma shape_snoc rooted k es e :
  shape rooted k (es ++ [e]) =
    (if bool_decide (replicate k ".." ++ es = []) then shape rooted k es
     else shape rooted k es +:+ "/") +:+ e.
Proof.
  unfold shape. rewrite List.app_assoc. case_bool_decide as Hem.
  - rewrite Hem. simpl. by rewrite sapp_nil_r.
  - rewrite strings_Join_snoc by done. by rewrite !sapp_assoc.
Qed.

(** A name is added to the shape. *)
Lemma elem_step_name rooted k es e :
  Forall name es → name e →
  elem_step rooted (shape rooted k es, dotdot_of rooted k) e =
    (shape rooted k (es ++ [e]), dotdot_of rooted k).
Proof.
  intros Hes (H1 & H2 & H3 & _). rewrite elem_step_real by done.
  cbn [fst snd]. by rewrite add_slash_shape, shape_snoc.
Qed.

Lemma replicate_snoc {A} (x : A) k : replicate (S k) x = replicate k x ++ [x].
Proof. induction k as [|k IH]; [done|]. simpl in *. by rewrite <- IH. Qed.

(** With no name written, [..] is added when the path is not rooted and
    dropped when it is. *)
Lemma dotdot_step_top rooted k :
  (rooted = true → k = 0) →
  dotdot_step rooted (shape rooted k []) (dotdot_of rooted k) =
    if rooted then (shape rooted k [], dotdot_of rooted k)
    else (shape false (S k) [], dotdot_of false (S k)).
Proof.
  intros Hk. unfold dotdot_step, dotdot_of. rewrite length_shape.
  rewrite List.app_nil_r. destruct rooted.
  - rewrite Hk by done. done.
  - rewrite bool_decide_eq_false_2 by (simpl; lia). cbn [negb].
    unfold shape. rewrite !List.app_nil_r. cbn [String.append].
    replace ((if bool_decide (0 < String.length (strings_Join (replicate k "..") "/"))
              then strings_Join (replicate k "..") "/" +:+ "/"
              else strings_Join (replicate k "..") "/") +:+ "..")
      with (strings_Join (replicate (S k) "..") "/"); [done|].
    rewrite replicate_snoc. destruct k as [|k]; [done|].
    rewrite strings_Join_snoc by done.
    rewrite bool_decide_eq_true_2; [by rewrite sapp_assoc|].
    destruct (strings_Join (replicate (S k) "..") "/") eqn:Hj; [|simpl; lia].
    by destruct (strings_Join_nonempty (replicate (S k) "..") "/");
      [|apply Forall_replicate|].
Qed.

(** *** Stepping back over a name *)

Lemma byte_at_no_slash e i :
  no_slash e = true → i < String.length e → byte_at e i ≠ "/"%char.
Proof.
  revert i. induction e as [|c e IH]; intros i; simpl; [lia|].
  intros [Hc He]%andb_prop Hi. destruct i as [|i].
  - unfold byte_at. simpl. intros ->. done.
  - apply (IH i); [done|lia].
Qed.

Lemma backtrack_run buf dd w n :
  (∀ j, w < j → j ≤ w + n → dd < j ∧ byte_at buf j ≠ "/"%char) →
  backtrack buf dd (w + n) = backtrack buf dd w.
Proof.
  induction n as [|n IH]; intros Hrun; [by rewrite Nat.add_0_r|].
  rewrite Nat.add_succ_r. cbn [backtrack].
  destruct (Hrun (S (w + n))) as [Hdd Hb]; [lia..|].
  rewrite bool_decide_eq_true_2 by done.
  destruct (Ascii.eqb_spec (byte_at buf (S (w + n))) "/"); [done|].
  cbn [negb andb]. apply IH. intros j ? ?. apply Hrun; lia.
Qed.

Lemma backtrack_stop buf dd w :
  w ≤ dd ∨ byte_at buf w = "/"%char → backtrack buf dd w = w.
Proof.
  destruct w as [|w]; [done|]. cbn [backtrack]. intros [Hw|Hw].
  - by rewrite bool_decide_eq_false_2 by lia.
  - rewrite Hw. by rewrite andb_false_r.
Qed.

(** Stepping back from the end of [A/e], or of [Ae] when [dotdot] stands
    at the end of [A], stops at the end of [A]. *)
Lemma backtrack_name A e dd :
  no_slash e = true → e ≠ "" →
  (dd ≤ String.length A →
   backtrack (A +:+ "/" +:+ e) dd
     (String.length (A +:+ "/" +:+ e) - 1) = String.length A) ∧
  (dd = String.length A →
   backtrack (A +:+ e) dd (String.length (A +:+ e) - 1) = String.length A).
Proof.
  intros He Hne. assert (0 < String.length e) by (destruct e; simpl; [done|lia]).
  split; intros Hdd.
  - rewrite !length_sapp. change (String.length "/") with 1.
    replace (String.length A + (1 + String.length e) - 1)
      with (String.length A + String.length e) by lia.
    rewrite backtrack_run.
    + apply backtrack_stop. right.
      rewrite <- (Nat.add_0_r (String.length A)) at 1. by rewrite byte_at_app_r.
    + intros j Hj1 Hj2. split; [lia|].
      replace j with (String.length A + S (j - String.length A - 1)) by lia.
      rewrite byte_at_app_r.
      change (byte_at ("/" +:+ e) (S (j - String.length A - 1)))
        with (byte_at e (j - String.length A - 1)).
      apply byte_at_no_slash; [done|lia].
  - rewrite !length_sapp.
    replace (String.length A + String.length e - 1)
      with (String.length A + (String.length e - 1)) by lia.
    rewrite backtrack_run.
    + apply backtrack_stop. left. lia.
    + intros j Hj1 Hj2. split; [lia|].
      replace j with (String.length A + (j - String.length A)) by lia.
      rewrite byte_at_app_r. apply byte_at_no_slash; [done|lia].
Qed.

Lemma dotdot_of_le rooted k es :
  Forall name es →
  dotdot_of rooted k ≤ String.length (shape rooted k es) ∧
  (replicate k ".." ++ es = [] →
   dotdot_of rooted k = String.length (shape rooted k es)).
Proof.
  intros Hes. rewrite length_shape. unfold dotdot_of. split.
  - destruct rooted; [lia|]. simpl.
    destruct (decide (es = [])) as [->|Hne]; [by rewrite List.app_nil_r|].
    destruct k as [|k]; [simpl; lia|].
    rewrite strings_Join_app by done. rewrite !length_sapp. lia.
  - intros [Hk ->]%app_eq_nil. rewrite List.app_nil_r.
    destruct k; [|done]. by destruct rooted.
Qed.

(** With a name written last, [..] takes it away. *)
Lemma dotdot_step_pop rooted k es e :
  Forall name es → name e →
  dotdot_step rooted (shape rooted k (es ++ [e])) (dotdot_of rooted k) =
    (shape rooted k es, dotdot_of rooted k).
Proof.
  intros Hes (Hne & _ & _ & Hns). unfold dotdot_step.
  destruct (dotdot_of_le rooted k es Hes) as [Hle Heq].
  assert (0 < String.length e) by (destruct e; simpl; [done|lia]).
  rewrite shape_snoc.
  destruct (decide (replicate k ".." ++ es = [])) as [Hem|Hem].
  - rewrite (bool_decide_eq_true_2 (_ = [])) by done.
    rewrite bool_decide_eq_true_2 by (rewrite length_sapp; rewrite Heq by done; lia).
    rewrite (proj2 (backtrack_name _ e _ Hns Hne)) by auto.
    by rewrite substring_app_l.
  - rewrite (bool_decide_eq_false_2 (_ = [])) by done. rewrite sapp_assoc.
    rewrite bool_decide_eq_true_2 by (rewrite !length_sapp; simpl; lia).
    rewrite (proj1 (backtrack_name _ e _ Hns Hne)) by auto.
    by rewrite substring_app_l.
Qed.


(** *** What [Clean] returns has the shape *)

Lemma elem_step_shaped rooted st e :
  no_slash e = true → shaped rooted st → shaped rooted (elem_step rooted st e).
Proof.
  intros He (k & es & -> & Hes & Hk).
  destruct (decide (e = "")) as [->|H1]; [by exists k, es|].
  destruct (decide (e = ".")) as [->|H2]; [by exists k, es|].
  destruct (decide (e = "..")) as [->|H3].
  - change (elem_step rooted (shape rooted k es, dotdot_of rooted k) "..")
      with (dotdot_step rooted (shape rooted k es) (dotdot_of rooted k)).
    destruct es as [|x es _] using rev_ind.
    + rewrite dotdot_step_top by done. destruct rooted.
      * by exists k, [].
      * exists (S k), []. split_and!; [done|done|done].
    + apply Forall_app in Hes as [Hes [Hx _]%Forall_cons].
      rewrite dotdot_step_pop by done. by exists k, es.
  - rewrite elem_step_name by done. exists k, (es ++ [e]).
    split_and!; [done| |done]. apply Forall_app. split; [done|].
    by apply Forall_singleton.
Qed.

Lemma fold_shaped rooted l st :
  Forall (λ e, no_slash e = true) l → shaped rooted st →
  shaped rooted (fold_left (elem_step rooted) l st).
Proof.
  revert st. induction l as [|e l IH]; intros st Hl Hst; [done|].
  apply Forall_cons in Hl as [He Hl]. simpl.
  by apply IH, elem_step_shaped.
Qed.

Lemma elements_no_slash s :
  no_slash (elements s).1 = true ∧
  Forall (λ e, no_slash e = true) (elements s).2.
Proof.
  induction s as [|c s [IH1 IH2]]; [done|]. rewrite elements_cons.
  destruct (Ascii.eqb c "/") eqn:Hc; cbn [fst snd].
  - split; [done|]. by constructor.
  - split; [|done]. simpl. by rewrite Hc, IH1.
Qed.

Lemma start_shaped rooted : shaped rooted (start rooted).
Proof. exists 0, []. by destruct rooted. Qed.

Lemma clean_state_shaped p : shaped (clean_state p).1 (clean_state p).2.
Proof.
  destruct p as [|c t]; [apply (start_shaped false)|]. unfold clean_state.
  set (rooted := Ascii.eqb c "/").
  destruct (elements_no_slash (if rooted then t else String c t)) as [H1 H2].
  destruct (elements _) as [e l]. cbn [fst snd] in *.
  apply fold_shaped; [by constructor|apply start_shaped].
Qed.

(** [Clean] returns a slash or nothing, then [..] elements if it returned
    no slash, then names, with one slash between two elements; or [.]
    in place of the empty path. *)

Theorem Clean_shape p :
  ∃ rooted k es,
    Forall name es ∧ (rooted = true → k = 0) ∧
    clean_state p = (rooted, (shape rooted k es, dotdot_of rooted k)) ∧
    Clean p = cleaned rooted k es.
Proof.
  destruct (clean_state_shaped p) as (k & es & Hst & Hes & Hk).
  exists (clean_state p).1, k, es. split_and!; [done|done| |].
  - rewrite <- Hst. by destruct (clean_state p).
  - rewrite Clean_by_elements. unfold Clean_elements, cleaned. by rewrite Hst.
Qed.


(** *** [Clean] on a path that has the shape *)

Lemma elements_name a : no_slash a = true → elements a = (a, []).
Proof.
  induction a as [|c a IH]; [done|]. simpl no_slash.
  intros [Hc Ha]%andb_prop. rewrite elements_cons, IH by done.
  by destruct (Ascii.eqb c "/").
Qed.

Lemma elements_snoc s e :
  no_slash e = true →
  elements (s +:+ "/" +:+ e) = ((elements s).1, (elements s).2 ++ [e]).
Proof.
  intros He. induction s as [|c s IH].
  - change ("" +:+ "/" +:+ e) with (String "/" e).
    by rewrite elements_cons, elements_name.
  - rewrite sapp_cons, !elements_cons, IH. by destruct (Ascii.eqb c "/").
Qed.

(** One more element at the end of a path is one more step. *)
Lemma clean_state_snoc p e :
  p ≠ "" → no_slash e = true →
  clean_state (p +:+ "/" +:+ e) =
    ((clean_state p).1, elem_step (clean_state p).1 (clean_state p).2 e).
Proof.
  intros Hp He. destruct p as [|c t]; [done|]. rewrite sapp_cons.
  unfold clean_state. destruct (Ascii.eqb c "/").
  - rewrite elements_snoc by done. destruct (elements t) as [a l].
    cbn [fst snd]. by rewrite app_comm_cons, fold_left_app.
  - rewrite <- sapp_cons, elements_snoc by done.
    destruct (elements (String c t)) as [a l].
    cbn [fst snd]. by rewrite app_comm_cons, fold_left_app.
Qed.

Lemma shape_nonempty rooted k es :
  Forall name es → replicate k ".." ++ es ≠ [] → shape rooted k es ≠ "".
Proof.
  intros Hes Hne Hs. apply Hne, (shape_empty k es Hes).
  unfold shape in Hs. destruct rooted; [done|]. exact Hs.
Qed.

Lemma name_first e : name e → ∃ c t, e = String c t ∧ Ascii.eqb c "/" = false.
Proof.
  intros (Hne & _ & _ & Hns). destruct e as [|c t]; [done|]. exists c, t.
  split; [done|]. simpl in Hns. apply andb_prop in Hns as [Hc _].
  by destruct (Ascii.eqb c "/").
Qed.

Lemma clean_state_dots k :
  clean_state (shape false (S k) []) =
    (false, (shape false (S k) [], dotdot_of false (S k))).
Proof.
  induction k as [|k IH]; [done|].
  assert (shape false (S (S k)) [] = shape false (S k) [] +:+ "/" +:+ "..") as Heq.
  { unfold shape. rewrite !List.app_nil_r. cbn [String.append].
    rewrite (replicate_snoc _ (S k)). by rewrite strings_Join_snoc. }
  rewrite Heq at 1.
  rewrite clean_state_snoc; [|by apply shape_nonempty; [constructor|simpl]|done].
  rewrite IH. cbn [fst snd].
  change (elem_step false (shape false (S k) [], dotdot_of false (S k)) "..")
    with (dotdot_step false (shape false (S k) []) (dotdot_of false (S k))).
  by rewrite dotdot_step_top.
Qed.

(** The loop of [Clean] on a path that has the shape ends with that path
    written. *)
Lemma clean_state_shape rooted k es :
  Forall name es → (rooted = true → k = 0) → shape rooted k es ≠ "" →
  clean_state (shape rooted k es) =
    (rooted, (shape rooted k es, dotdot_of rooted k)).
Proof.
  intros Hes Hk. induction es as [|e es IH] using rev_ind; intros Hne.
  - destruct k as [|k]; [|destruct rooted; [by specialize (Hk eq_refl)|]].
    + by destruct rooted.
    + apply clean_state_dots.
  - apply Forall_app in Hes as [Hes [He _]%Forall_cons].
    destruct (decide (replicate k ".." ++ es = [])) as [Hem|Hem].
    + apply app_eq_nil in Hem as [Hk0 ->]. destruct k; [|done].
      pose proof (elem_step_name rooted 0 [] e (List.Forall_nil _) He) as Hstep.
      destruct (name_first e He) as (c & t & -> & Hc).
      destruct He as (_ & _ & _ & Hns).
      destruct rooted.
      * change (shape true 0 ([] ++ [String c t])) with (String "/" (String c t)).
        unfold clean_state. simpl Ascii.eqb. cbn iota.
        rewrite elements_name by done. cbn [fold_left]. f_equal. exact Hstep.
      * change (shape false 0 ([] ++ [String c t])) with (String c t).
        unfold clean_state. rewrite Hc.
        rewrite elements_name by done. cbn [fold_left]. f_equal. exact Hstep.
    + assert (shape rooted k (es ++ [e]) = shape rooted k es +:+ "/" +:+ e) as Heq.
      { rewrite shape_snoc, bool_decide_eq_false_2 by done. by rewrite sapp_assoc. }
      rewrite Heq at 1.
      rewrite clean_state_snoc; [|by apply shape_nonempty|apply He].
      rewrite IH; [|done|by apply shape_nonempty]. cbn [fst snd].
      by rewrite elem_step_name.
Qed.


Lemma shape_empty_inv rooted k es :
  Forall name es → shape rooted k es = "" →
  rooted = false ∧ k = 0 ∧ es = [].
Proof.
  intros Hes Hs. destruct rooted; [done|]. split; [done|].
  apply (shape_empty k es Hes) in Hs. apply app_eq_nil in Hs as [Hk ->].
  by destruct k.
Qed.

Lemma cleaned_shape rooted k es :
  shape rooted k es ≠ "" → cleaned rooted k es = shape rooted k es.
Proof. unfold cleaned. by destruct (shape rooted k es). Qed.

Lemma clean_state_cleaned rooted k es :
  Forall name es → (rooted = true → k = 0) →
  clean_state (cleaned rooted k es) =
    (rooted, (shape rooted k es, dotdot_of rooted k)).
Proof.
  intros Hes Hk. destruct (decide (shape rooted k es = "")) as [He|Hne].
  - destruct (shape_empty_inv _ _ _ Hes He) as (-> & -> & ->). done.
  - rewrite cleaned_shape by done. by apply clean_state_shape.
Qed.

(** [Clean] leaves what it returned as it is. *)
Theorem Clean_idempotent p : Clean (Clean p) = Clean p.
Proof.
  destruct (Clean_shape p) as (rooted & k & es & Hes & Hk & _ & ->).
  rewrite Clean_by_elements. unfold Clean_elements.
  by rewrite clean_state_cleaned.
Qed.

Lemma cleaned_nonempty rooted k es : cleaned rooted k es ≠ "".
Proof. unfold cleaned. by destruct (shape rooted k es). Qed.

(** A name joined to a cleaned path. *)
Lemma Clean_join_name rooted k es nm :
  Forall name es → (rooted = true → k = 0) → name nm →
  Clean (cleaned rooted k es +:+ "/" +:+ nm) = shape rooted k (es ++ [nm]).
Proof.
  intros Hes Hk Hnm. rewrite Clean_by_elements. unfold Clean_elements.
  rewrite clean_state_snoc; [|apply cleaned_nonempty|apply Hnm].
  rewrite clean_state_cleaned by done. cbn [fst snd].
  rewrite elem_step_name by done. cbn [fst snd].
  assert (shape rooted k (es ++ [nm]) ≠ "") as Hne.
  { apply shape_nonempty.
    - apply Forall_app. split; [done|]. by apply Forall_singleton.
    - rewrite List.app_assoc. by destruct (replicate k ".." ++ es). }
  by destruct (shape rooted k (es ++ [nm])).
Qed.

(** A slash at the end of a cleaned path is dropped. *)
Lemma Clean_trailing_slash rooted k es :
  Forall name es → (rooted = true → k = 0) →
  Clean (cleaned rooted k es +:+ "/") = cleaned rooted k es.
Proof.
  intros Hes Hk. rewrite <- (sapp_nil_r (_ +:+ "/")), sapp_assoc.
  rewrite Clean_by_elements. unfold Clean_elements.
  rewrite clean_state_snoc; [|apply cleaned_nonempty|done].
  rewrite clean_state_cleaned by done. cbn [fst snd].
  by rewrite elem_step_skip by auto.
Qed.

Lemma lastSlash_name nm : no_slash nm = true → lastSlash nm = None.
Proof.
  induction nm as [|c nm IH]; [done|]. simpl.
  intros [Hc Hnm]%andb_prop. rewrite IH by done.
  by destruct (Ascii.eqb c "/").
Qed.

Lemma lastSlash_app_name Y nm :
  no_slash nm = true → lastSlash (Y +:+ "/" +:+ nm) = Some (String.length Y).
Proof.
  intros Hnm. induction Y as [|c Y IH].
  - change ("" +:+ "/" +:+ nm) with (String "/" nm). simpl.
    by rewrite lastSlash_name.
  - rewrite sapp_cons. simpl. by rewrite IH.
Qed.

(** The directory part of [Y/nm] is [Y/], and that of [nm] is empty. *)
Lemma Split_name Y nm :
  no_slash nm = true →
  (Split (Y +:+ "/" +:+ nm)).1 = Y +:+ "/" ∧ (Split nm).1 = "".
Proof.
  intros Hnm. unfold Split. rewrite lastSlash_app_name, lastSlash_name by done.
  split; [|done]. cbn [fst].
  replace (S (String.length Y)) with (String.length (Y +:+ "/"))
    by (rewrite length_sapp; simpl; lia).
  by rewrite <- sapp_assoc, substring_app_l.
Qed.

(** The directory of a shape that ends with a name is the shape without
    that name. *)
Lemma Dir_shape_snoc rooted k es nm :
  Forall name es → (rooted = true → k = 0) → name nm →
  Dir (shape rooted k (es ++ [nm])) = cleaned rooted k es.
Proof.
  intros Hes Hk Hnm. unfold Dir. rewrite shape_snoc.
  destruct (Split_name (shape rooted k es) nm) as [HS1 HS2]; [apply Hnm|].
  case_bool_decide as Hem.
  - apply app_eq_nil in Hem as [Hk0 ->]. destruct k; [|done].
    destruct rooted.
    + change (shape true 0 [] +:+ nm) with ("" +:+ "/" +:+ nm).
      destruct (Split_name "" nm) as [-> _]; [apply Hnm|]. done.
    + change (shape false 0 [] +:+ nm) with nm. by rewrite HS2.
  - rewrite sapp_assoc, HS1. rewrite <- cleaned_shape.
    + by apply Clean_trailing_slash.
    + by apply shape_nonempty.
Qed.

(** The directory of a name joined to a cleaned path is that path. *)
Theorem Dir_join_name dir nm :
  name nm →
  Dir (Clean (Join [Clean dir; nm])) = Clean dir.
Proof.
  intros Hnm. destruct (Clean_shape dir) as (rooted & k & es & Hes & Hk & _ & ->).
  cbn [Join]. rewrite bool_decide_eq_false_2 by apply cleaned_nonempty.
  change (strings_Join [cleaned rooted k es; nm] "/")
    with (cleaned rooted k es +:+ "/" +:+ nm).
  rewrite Clean_idempotent, Clean_join_name by done.
  by apply Dir_shape_snoc.
Qed.

Lemma Clean_cleaned rooted k es :
  Forall name es → (rooted = true → k = 0) →
  Clean (cleaned rooted k es) = cleaned rooted k es.
Proof.
  intros Hes Hk. rewrite Clean_by_elements. unfold Clean_elements.
  by rewrite clean_state_cleaned.
Qed.

Lemma shape_app rooted k es ns :
  shape rooted k (es ++ ns) =
    shape rooted k es +:+
    (if bool_decide (ns = []) then ""
     else if bool_decide (replicate k ".." ++ es = []) then strings_Join ns "/"
          else "/" +:+ strings_Join ns "/").
Proof.
  unfold shape. destruct (decide (ns = [])) as [->|Hns].
  { by rewrite List.app_nil_r, sapp_nil_r. }
  rewrite (bool_decide_eq_false_2 (ns = [])) by done.
  rewrite List.app_assoc. case_bool_decide as Hem.
  - rewrite Hem. simpl app. change (strings_Join [] "/") with "".
    by rewrite sapp_nil_r.
  - rewrite strings_Join_app by done. by rewrite !sapp_assoc.
Qed.

Lemma strings_Join_last l a b sep :
  strings_Join (l ++ [a]) sep +:+ b = strings_Join (l ++ [a +:+ b]) sep.
Proof.
  destruct (decide (l = [])) as [->|Hl]; [done|].
  rewrite !strings_Join_snoc by done. by rewrite !sapp_assoc.
Qed.

(** Names added at the end of a path are added to the shape. *)
Lemma clean_state_names p rooted k es ns :
  p ≠ "" → Forall name es → Forall name ns → ns ≠ [] →
  clean_state p = (rooted, (shape rooted k es, dotdot_of rooted k)) →
  clean_state (p +:+ "/" +:+ strings_Join ns "/") =
    (rooted, (shape rooted k (es ++ ns), dotdot_of rooted k)).
Proof.
  intros Hp Hes Hns Hne Hst.
  induction ns as [|n ns IH] using rev_ind; [done|].
  apply Forall_app in Hns as [Hns [Hn _]%Forall_cons].
  destruct (decide (ns = [])) as [->|Hns'].
  - change (strings_Join ([] ++ [n]) "/") with n.
    rewrite clean_state_snoc; [|done|apply Hn]. rewrite Hst. cbn [fst snd].
    by rewrite elem_step_name.
  - rewrite strings_Join_snoc by done.
    replace (p +:+ "/" +:+ strings_Join ns "/" +:+ "/" +:+ n)
      with ((p +:+ "/" +:+ strings_Join ns "/") +:+ "/" +:+ n)
      by (by rewrite !sapp_assoc).
    rewrite clean_state_snoc; [| |apply Hn].
    + rewrite IH by done. cbn [fst snd].
      rewrite elem_step_name; [|by apply Forall_app|done].
      by rewrite <- List.app_assoc.
    + destruct p; done.
Qed.


(** Names joined to a cleaned path. *)
Lemma Join_names rooted k es ns :
  Forall name es → (rooted = true → k = 0) → Forall name ns →
  Join [cleaned rooted k es; strings_Join ns "/"] = cleaned rooted k (es ++ ns).
Proof.
  intros Hes Hk Hns. cbn [Join].
  rewrite bool_decide_eq_false_2 by apply cleaned_nonempty.
  destruct (decide (ns = [])) as [->|Hne].
  - change (strings_Join [cleaned rooted k es; strings_Join [] "/"] "/")
      with (cleaned rooted k es +:+ "/" +:+ "").
    rewrite <- sapp_assoc, sapp_nil_r, List.app_nil_r.
    by apply Clean_trailing_slash.
  - change (strings_Join [cleaned rooted k es; strings_Join ns "/"] "/")
      with (cleaned rooted k es +:+ "/" +:+ strings_Join ns "/").
    rewrite Clean_by_elements. unfold Clean_elements.
    rewrite (clean_state_names _ rooted k es ns);
      [|apply cleaned_nonempty|done..|by apply clean_state_cleaned].
    done.
Qed.

Lemma no_slash_app a b : no_slash (a +:+ b) = no_slash a && no_slash b.
Proof.
  induction a as [|c a IH]; [done|]. rewrite sapp_cons. simpl.
  by rewrite IH, andb_assoc.
Qed.

(** The joined path of a root and a name: the shape of the cleaned root
    with the name added, whether the root is cleaned first or not. *)
Lemma Join_name dir nm :
  name nm →
  ∃ rooted k es,
    Forall name es ∧ (rooted = true → k = 0) ∧
    Clean dir = cleaned rooted k es ∧
    Join [dir; nm] = shape rooted k (es ++ [nm]) ∧
    Join [Clean dir; nm] = shape rooted k (es ++ [nm]).
Proof.
  intros Hnm.
  destruct (Clean_shape dir) as (rooted & k & es & Hes & Hk & Hst & Hc).
  exists rooted, k, es. split_and!; [done..| |].
  - destruct (decide (dir = "")) as [->|Hdir].
    + injection Hst as <- Hs _. 
      destruct (shape_empty_inv false k es Hes (eq_sym Hs)) as (_ & -> & ->).
      cbn [Join]. rewrite bool_decide_eq_true_2 by done.
      rewrite bool_decide_eq_false_2 by apply Hnm.
      change (strings_Join [nm] "/") with (shape false 0 ([] ++ [nm])).
      rewrite Clean_by_elements. unfold Clean_elements.
      rewrite clean_state_shape; [| | |].
      * cbn [fst snd]. destruct (shape false 0 ([] ++ [nm])) eqn:E; [|done].
        destruct Hnm as (Hne & _). done.
      * by apply Forall_singleton.
      * done.
      * apply Hnm.
    + cbn [Join]. rewrite bool_decide_eq_false_2 by done.
      change (strings_Join [dir; nm] "/") with (dir +:+ "/" +:+ nm).
      rewrite Clean_by_elements. unfold Clean_elements.
      rewrite clean_state_snoc; [|done|apply Hnm].
      rewrite Hst. cbn [fst snd]. rewrite elem_step_name by done. cbn [fst snd].
      assert (shape rooted k (es ++ [nm]) ≠ "") as Hne.
      { apply shape_nonempty.
        - apply Forall_app. split; [done|]. by apply Forall_singleton.
        - rewrite List.app_assoc. by destruct (replicate k ".." ++ es). }
      by destruct (shape rooted k (es ++ [nm])).
  - rewrite Hc. cbn [Join]. rewrite bool_decide_eq_false_2 by apply cleaned_nonempty.
    change (strings_Join [cleaned rooted k es; nm] "/")
      with (cleaned rooted k es +:+ "/" +:+ nm).
    by apply Clean_join_name.
Qed.

End path_facts.

(** * Facts about the file system *)

Module os_facts.
Import GoString path path_elements os statements GoString_facts path_facts.

Lemma grows_refl fs : grows fs fs.
Proof. split; [by left|done]. Qed.

Lemma grows_trans fs1 fs2 fs3 : grows fs1 fs2 → grows fs2 fs3 → grows fs1 fs3.
Proof.
  intros (H12 & ? & ?) (H23 & ? & ?). split; [|split; [lia|congruence]].
  intros p. destruct (H12 p) as [E1|[E1 E1']], (H23 p) as [E2|[E2 E2']].
  - left. congruence.
  - right. split; congruence.
  - right. split; congruence.
  - congruence.
Qed.

Lemma Stat_None fs p : Stat fs p = None → nodes fs !! p = None.
Proof. unfold Stat. by destruct (always_dir p). Qed.

Lemma Stat_File fs p c t :
  Stat fs p = Some (File c t) ↔ always_dir p = false ∧ nodes fs !! p = Some (File c t).
Proof.
  unfold Stat. destruct (always_dir p); (split; [intros ?|intros [? ?]]); done.
Qed.

Lemma Mkdir_grows p fs err fs' : Mkdir p fs = (err, fs') → grows fs fs'.
Proof.
  unfold Mkdir. case_bool_decide; [intros [= <- <-]; apply grows_refl|].
  destruct (Stat fs p) eqn:Hs; [intros [= <- <-]; apply grows_refl|].
  destruct (holder_errno fs p); intros [= <- <-]; [apply grows_refl|].
  split; [|simpl; split; [lia|done]].
  intros q. simpl. destruct (decide (p = q)) as [<-|Hne].
  - right. rewrite lookup_insert_eq. eauto using Stat_None.
  - left. by rewrite lookup_insert_ne.
Qed.

Lemma mkdir_last_grows p fs err fs' : mkdir_last p fs = (err, fs') → grows fs fs'.
Proof.
  unfold mkdir_last. destruct (Mkdir p fs) as [[e|] fs1] eqn:Hm.
  - destruct (Stat fs1 p) as [[]|]; intros [= <- <-]; eauto using Mkdir_grows.
  - intros [= <- <-]. eauto using Mkdir_grows.
Qed.

Lemma MkdirAll_grows path fs err fs' :
  MkdirAll path fs = (err, fs') → grows fs fs'.
Proof.
  revert err fs'. funelim (MkdirAll path fs); intros err fs0 Hr.
  all: try injection Hr as <- <-.
  all: eauto using grows_refl, mkdir_last_grows, grows_trans.
Qed.

(** *** Scanning backward *)

Lemma scan_back_app f s t k m :
  scan_back f t k = S m →
  scan_back f (s +:+ t) (String.length s + k) = String.length s + S m.
Proof.
  induction k as [|k IH]; [done|]. rewrite Nat.add_succ_r. simpl.
  rewrite byte_at_app_r. destruct (f (byte_at t k)); [done|]. by intros [= <-].
Qed.

(** *** The directories that always exist *)

Lemma dotdots_length p : dotdots p = true → 2 ≤ String.length p.
Proof. destruct p as [|a [|b t]]; simpl; [done..|lia]. Qed.

Lemma dotdots_cons3 p : dotdots ("../" +:+ p) = dotdots p.
Proof. reflexivity. Qed.

Lemma dotdots_inv p :
  dotdots p = true → p = ".." ∨ ∃ p', p = "../" +:+ p' ∧ dotdots p' = true.
Proof.
  destruct p as [|a [|b t]]; simpl; [done..|].
  intros [[->%Ascii.eqb_eq ->%Ascii.eqb_eq]%andb_prop Ht]%andb_prop.
  destruct t as [|c t']; [by left|]. right.
  apply andb_prop in Ht as [->%Ascii.eqb_eq Ht]. by exists t'.
Qed.

Lemma dotdots_snoc_aux n p :
  String.length p ≤ n → dotdots p = true →
  p = ".." ∨ ∃ s, p = s +:+ "/.." ∧ dotdots s = true.
Proof.
  revert p. induction n as [|n IH]; intros p Hn Hp.
  { apply dotdots_length in Hp. lia. }
  destruct (dotdots_inv p Hp) as [->|(p' & -> & Hp')]; [by left|]. right.
  destruct (IH p') as [->|(s & -> & Hs)]; [|done| |].
  - rewrite length_sapp in Hn. simpl in Hn. lia.
  - by exists "..".
  - exists ("../" +:+ s). split; [|done]. by rewrite sapp_assoc.
Qed.

Lemma parent_of_snoc s : 2 ≤ String.length s → parent_of (s +:+ "/..") = Some s.
Proof.
  intros Hs. unfold parent_of. rewrite length_sapp. simpl String.length.
  rewrite (scan_back_app _ s "/.." 3 2) by reflexivity.
  rewrite (scan_back_app _ s "/.." 3 0) by reflexivity.
  rewrite bool_decide_eq_true_2 by lia.
  replace (String.length s + 1 - 1) with (String.length s) by lia.
  by rewrite substring_app_l.
Qed.

Lemma always_dir_parent p q :
  always_dir p = true → parent_of p = Some q → always_dir q = true.
Proof.
  unfold always_dir at 1. intros [[Hp|Hp]%orb_prop|Hp]%orb_prop.
  - apply bool_decide_eq_true in Hp as ->. done.
  - apply bool_decide_eq_true in Hp as ->. done.
  - destruct (dotdots_snoc_aux _ p (le_n _) Hp) as [->|(s & -> & Hs)]; [done|].
    rewrite parent_of_snoc by by apply dotdots_length.
    intros [= <-]. unfold always_dir. rewrite Hs. by rewrite orb_true_r.
Qed.

(** *** [Mkdir] and [MkdirAll] *)

Lemma grows_Stat_dir fs fs' q :
  grows fs fs' → Stat fs q = Some Directory → Stat fs' q = Some Directory.
Proof.
  intros [H _]. unfold Stat. destruct (always_dir q); [done|].
  intros Hq. destruct (H q) as [->|[? ?]]; congruence.
Qed.

Lemma Mkdir_ok p fs fs' :
  Mkdir p fs = (None, fs') →
  fs' = put p Directory fs ∧ Stat fs p = None ∧ holder_errno fs p = None.
Proof.
  unfold Mkdir. case_bool_decide; [done|].
  destruct (Stat fs p); [done|]. destruct (holder_errno fs p); [done|].
  by intros [= <-].
Qed.

Lemma Stat_put p n fs : always_dir p = false → Stat (put p n fs) p = Some n.
Proof. intros Hp. unfold Stat. rewrite Hp. simpl. by rewrite lookup_insert_eq. Qed.

Lemma Stat_None_always fs p : Stat fs p = None → always_dir p = false.
Proof. unfold Stat. by destruct (always_dir p). Qed.

Lemma mkdir_last_ok p fs fs' :
  mkdir_last p fs = (None, fs') → Stat fs' p = Some Directory.
Proof.
  unfold mkdir_last. destruct (Mkdir p fs) as [[e|] fs1] eqn:Hm.
  - destruct (Stat fs1 p) as [[]|] eqn:Hs; intros [= <-]; done.
  - intros [= <-]. apply Mkdir_ok in Hm as (-> & Hs & _).
    by apply Stat_put, Stat_None_always with fs.
Qed.

Lemma MkdirAll_ok path fs fs' :
  MkdirAll path fs = (None, fs') → Stat fs' path = Some Directory.
Proof.
  revert fs'. funelim (MkdirAll path fs); intros fs0 Hr;
    try discriminate; eauto using mkdir_last_ok.
  by injection Hr as <-.
Qed.

(** The defining equation of [MkdirAll]. *)
Lemma MkdirAll_eq path fs :
  MkdirAll path fs =
    match Stat fs path with
    | Some Directory => (None, fs)
    | Some (File _ _) => (Some (PathError "mkdir" path ENOTDIR), fs)
    | None =>
        match parent_of path with
        | Some parent =>
            match MkdirAll parent fs with
            | (Some e, fs') => (Some e, fs')
            | (None, fs') => mkdir_last path fs'
            end
        | None => mkdir_last path fs
        end
    end.
Proof.
  funelim (MkdirAll path fs); clear Heqcall; try clear Hind;
    repeat match goal with
           | H : ?l = _ |- context [?l] => rewrite H
           end; done.
Qed.

(** A directory that is there is left as it is: creation is idempotent. *)
Lemma MkdirAll_fast path fs :
  Stat fs path = Some Directory → MkdirAll path fs = (None, fs).
Proof. intros Hs. funelim (MkdirAll path fs); congruence. Qed.

Lemma Mkdir_tree_like p fs err fs' :
  tree_like fs → Mkdir p fs = (err, fs') → tree_like fs'.
Proof.
  intros Hwf Hm. destruct err as [e|].
  - unfold Mkdir in Hm. repeat case_match; naive_solver.
  - pose proof (Mkdir_grows _ _ _ _ Hm) as Hg.
    apply Mkdir_ok in Hm as (-> & Hs & Hh).
    intros p0 n q0. simpl. destruct (decide (p = p0)) as [<-|Hne].
    + intros _ Hq. unfold holder_errno in Hh. rewrite Hq in Hh.
      apply (grows_Stat_dir fs); [done|]. by repeat case_match.
    + rewrite lookup_insert_ne by done. intros Hn Hq.
      apply (grows_Stat_dir fs); eauto.
Qed.

Lemma mkdir_last_tree_like p fs err fs' :
  tree_like fs → mkdir_last p fs = (err, fs') → tree_like fs'.
Proof.
  unfold mkdir_last. intros Hwf. destruct (Mkdir p fs) as [[e|] fs1] eqn:Hm.
  - destruct (Stat fs1 p) as [[]|]; intros [= <- <-]; eauto using Mkdir_tree_like.
  - intros [= <- <-]. eauto using Mkdir_tree_like.
Qed.

Lemma MkdirAll_tree_like path fs err fs' :
  tree_like fs → MkdirAll path fs = (err, fs') → tree_like fs'.
Proof.
  revert err fs'. funelim (MkdirAll path fs); intros err fs0 Hwf Hr.
  all: try injection Hr as <- <-.
  all: eauto using mkdir_last_tree_like.
Qed.

Lemma ancestors_dirs fs p :
  tree_like fs → Stat fs p = Some Directory →
  Forall (λ q, Stat fs q = Some Directory) (ancestors p).
Proof.
  intros Hwf. funelim (ancestors p); intros Hs; [|constructor].
  assert (Stat fs parent = Some Directory) as Hq.
  { unfold Stat in Hs. destruct (always_dir path) eqn:Ha.
    - unfold Stat. by rewrite (always_dir_parent path parent).
    - eauto. }
  constructor; auto.
Qed.
(** *** The directory that holds a name *)

Lemma scan_back_all f s t k :
  (∀ i, i < k → f (byte_at t i) = true) →
  scan_back f (s +:+ t) (String.length s + k) =
    scan_back f (s +:+ t) (String.length s).
Proof.
  induction k as [|k IH]; intros Hall; [by rewrite Nat.add_0_r|].
  rewrite Nat.add_succ_r. cbn [scan_back]. rewrite byte_at_app_r.
  rewrite Hall by lia. apply IH. intros i Hi. apply Hall. lia.
Qed.

Lemma scan_back_stop f p i :
  f (byte_at p i) = false → scan_back f p (S i) = S i.
Proof. intros Hf. cbn [scan_back]. by rewrite Hf. Qed.

Lemma name_length nm : name nm → ∃ n, String.length nm = S n.
Proof. intros (Hne & _). destruct nm; [done|]. simpl. eauto. Qed.

Lemma name_byte nm i :
  name nm → i < String.length nm → IsPathSeparator (byte_at nm i) = false.
Proof.
  intros (_ & _ & _ & Hns) Hi. unfold IsPathSeparator.
  apply Ascii.eqb_neq. by apply byte_at_no_slash.
Qed.

(** The directory that holds [Y/nm] is [Y], or the root when [Y] is
    empty; the one that holds [nm] is the working directory. *)
Lemma parent_of_name Y nm :
  name nm →
  parent_of (Y +:+ "/" +:+ nm) = (if bool_decide (Y = "") then None else Some Y) ∧
  parent_of nm = None.
Proof.
  intros Hnm. destruct (name_length nm Hnm) as [n Hn].
  assert (∀ X, scan_back IsPathSeparator (X +:+ nm)
                 (String.length (X +:+ nm)) = String.length (X +:+ nm)) as Hi.
  { intros X. rewrite length_sapp, Hn, Nat.add_succ_r.
    apply scan_back_stop. rewrite byte_at_app_r. apply name_byte; [done|lia]. }
  assert (∀ X, scan_back (λ c, negb (IsPathSeparator c)) (X +:+ nm)
                 (String.length (X +:+ nm)) =
               scan_back (λ c, negb (IsPathSeparator c)) (X +:+ nm)
                 (String.length X)) as Hj.
  { intros X. rewrite length_sapp. apply scan_back_all.
    intros i Hi'. by rewrite name_byte. }
  split.
  - unfold parent_of. rewrite <- sapp_assoc, Hi, Hj.
    rewrite length_sapp. simpl String.length. rewrite Nat.add_1_r.
    rewrite scan_back_stop.
    + destruct (decide (Y = "")) as [->|HY]; [done|].
      * rewrite (bool_decide_eq_false_2 (Y = "")) by done.
        rewrite bool_decide_eq_true_2 by (destruct Y; simpl; [done|lia]).
        replace (S (String.length Y) - 1) with (String.length Y) by lia.
        by rewrite sapp_assoc, substring_app_l.
    + rewrite sapp_assoc.
      rewrite <- (Nat.add_0_r (String.length Y)), byte_at_app_r. done.
  - unfold parent_of. specialize (Hi ""). specialize (Hj "").
    change ("" +:+ nm) with nm in *. rewrite Hi, Hj. done.
Qed.


End os_facts.

Module wiki_facts.
Import GoString os wiki statements os_facts.

(** *** [ioutil.WriteFile] and [ioutil.ReadFile] *)

Lemma OpenFile_trunc_err name fs e fs1 :
  OpenFile_trunc name fs = (Some e, fs1) → fs1 = fs.
Proof.
  unfold OpenFile_trunc. repeat case_match; naive_solver.
Qed.

Lemma OpenFile_trunc_ok name fs fs1 :
  OpenFile_trunc name fs = (None, fs1) →
  always_dir name = false ∧ clock fs1 = S (clock fs) ∧
  nodes fs1 = <[name := File [] (clock fs)]> (nodes fs).
Proof.
  unfold OpenFile_trunc. case_bool_decide; [done|].
  destruct (Stat fs name) as [[c t|]|] eqn:Hs; [| done |].
  - apply Stat_File in Hs as [? ?]. by intros [= <-].
  - apply Stat_None_always in Hs. destruct (holder_errno fs name); [done|].
    by intros [= <-].
Qed.

Lemma WriteFile_frame name data fs err fs' q :
  WriteFile name data fs = (err, fs') → q ≠ name →
  nodes fs' !! q = nodes fs !! q.
Proof.
  unfold WriteFile. intros Hw Hq.
  destruct (OpenFile_trunc name fs) as [[e|] fs1] eqn:Ho.
  - apply OpenFile_trunc_err in Ho as ->. by injection Hw as <- <-.
  - apply OpenFile_trunc_ok in Ho as (_ & _ & Hn).
    unfold Write in Hw. injection Hw as <- <-. simpl.
    rewrite lookup_insert_ne by done. rewrite Hn. by rewrite lookup_insert_ne.
Qed.

(** After [WriteFile], whatever it returns, the named file is as it was
    (the open failed) or holds a leading part of the data. *)
Lemma WriteFile_at name data fs err fs' :
  WriteFile name data fs = (err, fs') →
  (err ≠ None ∧ fs' = fs) ∨
  ∃ k, Stat fs' name = Some (File (take k data) (S (clock fs))).
Proof.
  unfold WriteFile. intros Hw.
  destruct (OpenFile_trunc name fs) as [[e|] fs1] eqn:Ho.
  - apply OpenFile_trunc_err in Ho as ->. injection Hw as <- <-. by left.
  - apply OpenFile_trunc_ok in Ho as (Ha & Hc & Hn). right.
    unfold Write in Hw. injection Hw as <- <-. exists (free fs1).
    unfold Stat. rewrite Ha. simpl. by rewrite lookup_insert_eq, Hc.
Qed.

Lemma WriteFile_ok name data fs fs' :
  WriteFile name data fs = (None, fs') →
  Stat fs' name = Some (File data (S (clock fs))).
Proof.
  unfold WriteFile. intros Hw.
  destruct (OpenFile_trunc name fs) as [[e|] fs1] eqn:Ho; [done|].
  apply OpenFile_trunc_ok in Ho as (Ha & Hc & Hn).
  unfold Write in Hw.
  case_bool_decide as Hlen; [done|]. injection Hw as <-.
  unfold Stat. rewrite Ha. simpl. rewrite lookup_insert_eq, Hc.
  rewrite length_take in Hlen. by rewrite take_ge by lia.
Qed.

(** *** [mkSubDir] and [Save] *)

Lemma mkSubDir_grows dir file fs r fs' :
  mkSubDir dir file fs = (r, fs') → grows fs fs'.
Proof.
  unfold mkSubDir. destruct (slice _ _ _); [|intros [= <- <-]; apply grows_refl].
  case_bool_decide; [intros [= <- <-]; apply grows_refl|].
  destruct (MkdirAll _ fs) as [err fs1] eqn:Hm. intros [= <- <-].
  eauto using MkdirAll_grows.
Qed.

Lemma mkSubDir_ok dir file fs fs' :
  mkSubDir dir file fs = (Returns None, fs') →
  MkdirAll (subdir_of dir file) fs = (None, fs').
Proof.
  unfold mkSubDir, subdir_of. destruct (slice _ _ _); [|done].
  case_bool_decide; [done|].
  destruct (MkdirAll _ fs) as [err fs1] eqn:Hm. by intros [= -> ->].
Qed.

Lemma mkdir_last_error path fs e fs' :
  mkdir_last path fs = (Some e, fs') → e = PathError "mkdir" path EEXIST ∨
  e = PathError "mkdir" path ENOENT ∨ e = PathError "mkdir" path ENOTDIR.
Proof.
  unfold mkdir_last, Mkdir, holder_errno.
  repeat case_match; intros; simplify_eq; auto.
Qed.

(** What [MkdirAll] returns is never the error of the prefix check. *)
Lemma MkdirAll_error path fs e fs' :
  MkdirAll path fs = (Some e, fs') → e ≠ path_escape.
Proof.
  revert e fs'. funelim (MkdirAll path fs); intros e0 fs0 Hr.
  all: try (apply mkdir_last_error in Hr as [-> | [-> | ->]]; done).
  all: try (injection Hr as <- <-); eauto; done.
Qed.

Lemma mkSubDir_not_ok dir file fs r fs' :
  mkSubDir dir file fs = (r, fs') →
  r = Panics "slice bounds out of range" ∨ r = Returns (Some path_escape) →
  fs' = fs.
Proof.
  unfold mkSubDir. destruct (slice _ _ _); [|by intros [= <- <-]].
  case_bool_decide; [by intros [= <- <-]|].
  destruct (MkdirAll _ fs) as [err fs1] eqn:Hm. intros [= <- <-] [?|[= ->]]; [done|].
  by apply MkdirAll_error in Hm.
Qed.

Lemma Save_ok p datadir fs fs' :
  Save p datadir fs = (Returns None, fs') →
  ∃ t, clock fs < t ∧
       Stat fs' (page_path datadir (Title p)) = Some (File (Body p) t).
Proof.
  unfold Save, page_path.
  destruct (mkSubDir _ _ fs) as [[[e|]|msg] fs1] eqn:Hm; [done| |done].
  destruct (WriteFile _ _ fs1) as [err fs2] eqn:Hw. intros [= -> ->].
  apply mkSubDir_grows in Hm as (_ & Hc & _).
  apply WriteFile_ok in Hw. eexists. split; [|done]. lia.
Qed.
End wiki_facts.

(** * The page store *)

Module store.
Import GoString path path_elements os wiki statements.
Import GoString_facts path_facts os_facts wiki_facts.

(** ** Path resolution *)

Lemma slice_prefix s n :
  n ≤ String.length s → slice s 0 n = Some (String.substring 0 n s).
Proof.
  intros Hn. unfold slice. rewrite bool_decide_eq_true_2 by lia.
  by rewrite Nat.sub_0_r.
Qed.

Lemma slice_short s n : String.length s < n → slice s 0 n = None.
Proof. intros Hn. unfold slice. rewrite bool_decide_eq_false_2; [done|lia]. Qed.

(** What [mkSubDir] comes to, by the three ways the prefix check
    [sd[0:len(d)] != d] can go. *)
Lemma mkSubDir_cases dir file fs :
  let d := path.Clean dir in
  let sd := subdir_of dir file in
  mkSubDir dir file fs =
    if bool_decide (String.length sd < String.length d)
    then (Panics "slice bounds out of range", fs)
    else if String.prefix d sd
         then (let '(err, fs') := MkdirAll sd fs in (Returns err, fs'))
         else (Returns (Some path_escape), fs).
Proof.
  cbv zeta. unfold mkSubDir, subdir_of.
  generalize (path.Dir (path.Clean (path.Join [path.Clean dir; file]))).
  generalize (path.Clean dir). intros d sd.
  case_bool_decide as Hlen.
  - by rewrite slice_short.
  - rewrite slice_prefix by lia.
    destruct (String.prefix d sd) eqn:Hp.
    + apply prefix_correct in Hp. by rewrite bool_decide_eq_false_2 by naive_solver.
    + rewrite bool_decide_eq_true_2; [done|].
      intros Heq%prefix_correct. congruence.
Qed.

(** C1. The prefix check of [mkSubDir] compares strings, not path
    elements: under the root [/data], the file [../data-evil/x.md] resolves
    to the directory [/data-evil], which is neither the root nor below it,
    and still no file system makes [mkSubDir] return the path-escape
    error; where [/data-evil] is missing, it is created. The other way
    round, under the root [.] the file [sub/Page.md] resolves to the
    directory [sub], which is below the root, and is refused. *)
Theorem mkSubDir_prefix_collision (fs : FS) :
  subdir_of "/data" "../data-evil/x.md" = "/data-evil" ∧
  inside_root "/data" "/data-evil" = false ∧
  mkSubDir "/data" "../data-evil/x.md" fs =
    (let '(err, fs') := MkdirAll "/data-evil" fs in (Returns err, fs')) ∧
  (mkSubDir "/data" "../data-evil/x.md" fs).1 ≠ Returns (Some path_escape) ∧
  mkSubDir "/data" "../data-evil/x.md" (mkFS ∅ 0 0) =
    (Returns None, mkFS {[ "/data-evil" := Directory ]} 1 0) ∧
  subdir_of "." "sub/Page.md" = "sub" ∧
  mkSubDir "." "sub/Page.md" fs = (Returns (Some path_escape), fs).
Proof.
  assert (mkSubDir "/data" "../data-evil/x.md" fs =
    (let '(err, fs') := MkdirAll "/data-evil" fs in (Returns err, fs'))) as Hm.
  { by rewrite mkSubDir_cases. }
  split_and!; [done|done|done| |by vm_compute|done|by rewrite mkSubDir_cases].
  rewrite Hm. destruct (MkdirAll "/data-evil" fs) as [[e|] fs'] eqn:He; [|done].
  simpl. intros [= ->]. by apply MkdirAll_error in He.
Qed.

(** C3. [mkSubDir] is not total: when the cleaned directory of the joined
    path is shorter than the cleaned root, the slice [sd[0:len(d)]] is out
    of range and the call panics, whatever the file system holds. So it
    is for the files [..] and [../../etc/passwd.md] under [/data]. *)
Theorem mkSubDir_panics_on_short_dir (fs : FS) :
  mkSubDir "/data" ".." fs = (Panics "slice bounds out of range", fs) ∧
  mkSubDir "/data" "../../etc/passwd.md" fs =
    (Panics "slice bounds out of range", fs) ∧
  Save (new_page "../../etc/passwd" [] "") "/data" fs =
    (Panics "slice bounds out of range", fs).
Proof.
  assert (mkSubDir "/data" "../../etc/passwd.md" fs =
    (Panics "slice bounds out of range", fs)) as Hm by by rewrite mkSubDir_cases.
  split_and!; [by rewrite mkSubDir_cases|done|].
  unfold Save. simpl Title. change ("../../etc/passwd" +:+ FileExtension)
    with "../../etc/passwd.md". by rewrite Hm.
Qed.




(** ** Titles with no slash *)

(** The file of a title with no slash in it is a name. *)
Lemma title_file_name title :
  no_slash title = true → name (title +:+ FileExtension).
Proof.
  intros Ht. assert (3 ≤ String.length (title +:+ FileExtension)) as Hlen.
  { rewrite length_sapp. simpl. lia. }
  split_and!.
  - intros Heq. rewrite Heq in Hlen. simpl in Hlen. lia.
  - intros Heq. rewrite Heq in Hlen. simpl in Hlen. lia.
  - intros Heq. rewrite Heq in Hlen. simpl in Hlen. lia.
  - by rewrite no_slash_app, Ht.
Qed.

(** For a file that is a name, the directory [mkSubDir] checks is the
    cleaned root itself: the check passes, and [mkSubDir] is [MkdirAll] of
    the cleaned root. It neither panics nor returns the path-escape
    error. *)
Theorem mkSubDir_name (dir nm : string) (fs : FS) :
  name nm →
  subdir_of dir nm = Clean dir ∧
  mkSubDir dir nm fs =
    (let '(err, fs') := MkdirAll (Clean dir) fs in (Returns err, fs')).
Proof.
  intros Hnm. assert (subdir_of dir nm = Clean dir) as Hsd.
  { by apply Dir_join_name. }
  split; [done|]. rewrite mkSubDir_cases. cbv zeta. rewrite Hsd.
  rewrite bool_decide_eq_false_2 by lia.
  by rewrite (proj2 (prefix_correct _ _) (substring_all _)).
Qed.


Lemma page_path_nonempty dir nm : name nm → Join [dir; nm] ≠ "".
Proof.
  intros Hnm. destruct (Join_name dir nm Hnm) as (r & k & es & Hes & _ & _ & -> & _).
  apply shape_nonempty.
  - apply Forall_app. split; [done|]. by apply Forall_singleton.
  - rewrite List.app_assoc. by destruct (replicate k ".." ++ es).
Qed.

(** Where the cleaned root is a directory, the file of a name under it
    has a directory to lie in. *)
Lemma holder_errno_page dir nm fs :
  name nm → Stat fs (Clean dir) = Some Directory →
  holder_errno fs (Join [dir; nm]) = None.
Proof.
  intros Hnm Hd.
  destruct (Join_name dir nm Hnm) as (r & k & es & Hes & Hk & Hc & -> & _).
  unfold holder_errno. rewrite shape_snoc.
  destruct (decide (replicate k ".." ++ es = [])) as [Hem|Hem].
  - rewrite (bool_decide_eq_true_2 (_ = [])) by done.
    apply app_eq_nil in Hem as [Hk0 ->]. destruct k; [|done]. destruct r.
    + change (shape true 0 [] +:+ nm) with ("" +:+ "/" +:+ nm).
      by rewrite (proj1 (parent_of_name "" nm Hnm)).
    + change (shape false 0 [] +:+ nm) with nm.
      by rewrite (proj2 (parent_of_name "" nm Hnm)).
  - rewrite (bool_decide_eq_false_2 (_ = [])) by done.
    rewrite sapp_assoc, (proj1 (parent_of_name _ nm Hnm)).
    pose proof (shape_nonempty r k es Hes Hem) as Hne.
    rewrite bool_decide_eq_false_2 by done.
    rewrite cleaned_shape in Hc by done. by rewrite <- Hc, Hd.
Qed.

(** A page whose title has no slash in it is saved: where the cleaned
    data directory is a directory, the file of the page is not a
    directory, and the device has room for the body once the old page is
    cut, [Save] returns no error and the file holds the body. *)
Theorem Save_succeeds (p : Page) (datadir : string) (fs : FS) :
  no_slash (Title p) = true →
  Stat fs (Clean datadir) = Some Directory →
  Stat fs (page_path datadir (Title p)) ≠ Some Directory →
  length (Body p) ≤
    free fs + match Stat fs (page_path datadir (Title p)) with
              | Some (File old _) => length old
              | _ => 0
              end →
  ∃ fs', Save p datadir fs = (Returns None, fs') ∧
         Stat fs' (page_path datadir (Title p)) =
           Some (File (Body p) (S (clock fs))).
Proof.
  intros Ht Hd Hnd Hroom. pose proof (title_file_name _ Ht) as Hnm.
  assert (∃ fs', WriteFile (page_path datadir (Title p)) (Body p) fs = (None, fs'))
    as [fs' Hw].
  { unfold WriteFile, OpenFile_trunc, page_path in *.
    rewrite bool_decide_eq_false_2 by by apply page_path_nonempty.
    destruct (Stat fs (Join _)) as [[old t|]|] eqn:Hs; [|by destruct Hnd|].
    - unfold Write. cbn [free]. rewrite length_take.
      rewrite bool_decide_eq_false_2 by lia. eauto.
    - rewrite holder_errno_page by done.
      unfold Write, put. cbn [free]. rewrite length_take.
      rewrite bool_decide_eq_false_2 by lia. eauto. }
  exists fs'. split; [|by apply WriteFile_ok in Hw].
  unfold Save. rewrite (proj2 (mkSubDir_name datadir _ fs Hnm)).
  rewrite MkdirAll_fast by done. fold (page_path datadir (Title p)).
  by rewrite Hw.
Qed.

(** A title with no slash in it always passes the path check: whatever
    the data directory and the file system, [mkSubDir] on the file of the
    title is [MkdirAll] of the cleaned data directory, so that it neither
    panics nor returns the path-escape error. *)
Theorem mkSubDir_plain_title (datadir title : string) (fs : FS) :
  no_slash title = true →
  mkSubDir datadir (title +:+ FileExtension) fs =
    (let '(err, fs') := MkdirAll (Clean datadir) fs in (Returns err, fs')) ∧
  (mkSubDir datadir (title +:+ FileExtension) fs).1 ≠
    Panics "slice bounds out of range" ∧
  (mkSubDir datadir (title +:+ FileExtension) fs).1 ≠
    Returns (Some path_escape).
Proof.
  intros Ht. pose proof (title_file_name _ Ht) as Hnm.
  destruct (mkSubDir_name datadir _ fs Hnm) as [_ Hm]. rewrite Hm.
  split; [done|].
  destruct (MkdirAll (Clean datadir) fs) as [[e|] fs'] eqn:He; [|done].
  split; [done|]. simpl. intros [= ->]. by apply MkdirAll_error in He.
Qed.

Lemma mkSubDir_plain_title_witness :
  mkSubDir "./checkout/" "FrontPage.md" (mkFS ∅ 0 0) =
    (Returns None, mkFS {[ "checkout" := Directory ]} 1 0).
Proof.
  destruct (mkSubDir_plain_title "./checkout/" "FrontPage" (mkFS ∅ 0 0) eq_refl)
    as (Hm & _).
  change ("FrontPage" +:+ FileExtension) with "FrontPage.md" in Hm.
  rewrite Hm. reflexivity.
Defined.

(** A hierarchical title: names with a slash between two of them, and a
    last element with no slash in it. Under a data directory that does
    not clean to [.], the directory [mkSubDir] checks is the cleaned data
    directory joined with the directories of the title, the check passes,
    and [mkSubDir] is [MkdirAll] of that directory. *)
Theorem mkSubDir_hierarchical_title
  (datadir : string) (ns : list string) (last : string) (fs : FS) :
  Forall name ns → no_slash last = true → Clean datadir ≠ "." →
  let file := strings_Join (ns ++ [last]) "/" +:+ FileExtension in
  subdir_of datadir file = Join [Clean datadir; strings_Join ns "/"] ∧
  mkSubDir datadir file fs =
    (let '(err, fs') := MkdirAll (subdir_of datadir file) fs in
     (Returns err, fs')).
Proof.
  intros Hns Hlast Hroot file. subst file.
  rewrite strings_Join_last.
  pose proof (title_file_name _ Hlast) as Hnm.
  set (nm := last +:+ FileExtension) in *.
  assert (Forall name (ns ++ [nm])) as Hall.
  { apply Forall_app. split; [done|]. by apply Forall_singleton. }
  destruct (Clean_shape datadir) as (rooted & k & es & Hes & Hk & _ & Hc).
  assert (Forall name (es ++ ns ++ [nm])) as Hall' by by apply Forall_app.
  assert (subdir_of datadir (strings_Join (ns ++ [nm]) "/") =
          cleaned rooted k (es ++ ns)) as Hsd.
  { unfold subdir_of. rewrite Hc, Join_names by done.
    rewrite Clean_cleaned by done.
    rewrite cleaned_shape.
    - rewrite List.app_assoc. apply Dir_shape_snoc; [by apply Forall_app|done..].
    - intros He. apply shape_empty_inv in He as (_ & _ & He); [|done].
      apply app_eq_nil in He as [_ He]. by apply app_eq_nil in He as [_ ?]. }
  split.
  { by rewrite Hsd, Hc, Join_names. }
  pose proof (mkSubDir_cases datadir (strings_Join (ns ++ [nm]) "/") fs) as Hm.
  cbv zeta in Hm. rewrite Hm. clear Hm. rewrite Hsd, Hc.
  assert (shape rooted k es ≠ "") as Hne.
  { intros He. apply Hroot. rewrite Hc. unfold cleaned. by rewrite He. }
  assert (cleaned rooted k (es ++ ns) =
          cleaned rooted k es +:+
          (if bool_decide (ns = []) then ""
           else if bool_decide (replicate k ".." ++ es = []) then strings_Join ns "/"
                else "/" +:+ strings_Join ns "/")) as ->.
  { rewrite (cleaned_shape rooted k es) by done.
    rewrite <- shape_app. apply cleaned_shape.
    rewrite shape_app. by destruct (shape rooted k es). }
  rewrite prefix_app, bool_decide_eq_false_2; [done|].
  rewrite length_sapp. lia.
Qed.

Lemma mkSubDir_hierarchical_title_witness :
  subdir_of "/data" "a/b/Page.md" = "/data/a/b" ∧
  mkSubDir "/data" "a/b/Page.md" (mkFS {[ "/data" := Directory ]} 5 100) =
    (Returns None,
     mkFS {[ "/data" := Directory; "/data/a" := Directory;
             "/data/a/b" := Directory ]} 7 100).
Proof.
  assert (Forall name ["a"; "b"]) as Hns
    by (repeat constructor; done).
  destruct (mkSubDir_hierarchical_title "/data" ["a"; "b"] "Page"
              (mkFS {[ "/data" := Directory ]} 5 100) Hns eq_refl)
    as [Hsd Hm]; [done|].
  split; [exact Hsd|]. etrans; [exact Hm|]. by vm_compute.
Defined.

(** ** Directories *)

Lemma grows_files fs fs' p c t :
  grows fs fs' →
  nodes fs' !! p = Some (File c t) ↔ nodes fs !! p = Some (File c t).
Proof. intros [H _]. destruct (H p) as [->|[E1 E2]]; [done|]. rewrite E1, E2. naive_solver. Qed.

(** C10. [mkSubDir] creates directories at most: whatever the root and the
    file name, and whatever it returns, the file system afterwards holds
    the very files it held before, each with its content and its time of
    modification, no entry of any kind is changed or removed, and the room
    on the device is the same. *)
Theorem mkSubDir_touches_no_file (dir file : string) (fs : FS) :
  let fs' := (mkSubDir dir file fs).2 in
  (∀ p c t, nodes fs' !! p = Some (File c t) ↔ nodes fs !! p = Some (File c t)) ∧
  (∀ p n, nodes fs !! p = Some n → nodes fs' !! p = Some n) ∧
  (∀ p, nodes fs !! p = None → nodes fs' !! p = None ∨ nodes fs' !! p = Some Directory) ∧
  free fs' = free fs.
Proof.
  cbv zeta. destruct (mkSubDir dir file fs) as [r fs'] eqn:Hm.
  apply mkSubDir_grows in Hm as Hg. simpl. split_and!.
  - intros p c t. by apply grows_files.
  - intros p n Hp. destruct Hg as [H _]. destruct (H p) as [->|[? ?]]; congruence.
  - intros p Hp. destruct Hg as [H _]. destruct (H p) as [->|[? ?]]; auto.
  - apply Hg.
Qed.

(** C9. When [mkSubDir] returns no error on a file system where every
    entry lies in a directory, the directory of the joined path and every
    directory above it exist afterwards, and a second call finds them and
    changes nothing. So it is for the file [sub/Page.md] under [/data]:
    unless [/data] or [/data/sub] is a file, the call returns no error and
    [/data/sub] is a directory afterwards. *)
Theorem mkSubDir_makes_directories :
  (∀ dir file fs fs',
     tree_like fs →
     mkSubDir dir file fs = (Returns None, fs') →
     Forall (λ q, Stat fs' q = Some Directory)
       (subdir_of dir file :: ancestors (subdir_of dir file)) ∧
     mkSubDir dir file fs' = (Returns None, fs')) ∧
  (∀ fs,
     (∀ c t, Stat fs "/data" ≠ Some (File c t)) →
     (∀ c t, Stat fs "/data/sub" ≠ Some (File c t)) →
     ∃ fs', mkSubDir "/data" "sub/Page.md" fs = (Returns None, fs') ∧
            Stat fs' "/data/sub" = Some Directory).
Proof.
  split.
  - intros dir file fs fs' Hwf Hm.
    pose proof (mkSubDir_ok _ _ _ _ Hm) as Hall.
    pose proof (MkdirAll_ok _ _ _ Hall) as Hsd.
    pose proof (MkdirAll_tree_like _ _ _ _ Hwf Hall) as Hwf'.
    split.
    + constructor; [done|]. by apply ancestors_dirs.
    + rewrite mkSubDir_cases in Hm |- *. cbv zeta in *.
      case_bool_decide; [done|]. destruct (String.prefix _ _); [|done].
      by rewrite MkdirAll_fast.
  - intros fs Hdata Hsub. rewrite mkSubDir_cases. cbv zeta.
    change (subdir_of "/data" "sub/Page.md") with "/data/sub".
    change (path.Clean "/data") with "/data". simpl.
    assert (∃ fs1, MkdirAll "/data" fs = (None, fs1) ∧
                   Stat fs1 "/data" = Some Directory ∧
                   Stat fs1 "/data/sub" = Stat fs "/data/sub") as (fs1 & H1 & Hd1 & Hs1).
    { rewrite MkdirAll_eq.
      destruct (Stat fs "/data") as [[c t| ]|] eqn:Hd; [by destruct (Hdata c t)|by eauto|].
      change (parent_of "/data") with (@None string). cbv iota.
      unfold mkdir_last, Mkdir, holder_errno. simpl. rewrite Hd.
      change (parent_of "/data") with (@None string). cbv iota.
      eexists. split_and!; [done|by apply Stat_put|].
      unfold Stat. simpl. by rewrite lookup_insert_ne. }
    rewrite MkdirAll_eq.
    destruct (Stat fs "/data/sub") as [[c t| ]|] eqn:Hs; [by destruct (Hsub c t)|by eauto|].
    change (parent_of "/data/sub") with (Some "/data"). cbv iota. rewrite H1.
    unfold mkdir_last, Mkdir, holder_errno. simpl. rewrite Hs1.
    change (parent_of "/data/sub") with (Some "/data"). cbv iota. rewrite Hd1.
    eexists. split; [done|]. by apply Stat_put.
Qed.

Lemma tree_like_fs0 : tree_like rooted.fs0.
Proof.
  intros p n q Hp. simpl in Hp. apply lookup_singleton_Some in Hp as [<- _]. done.
Qed.

Lemma mkSubDir_makes_directories_witness :
  Forall (λ q, Stat (mkSubDir "/data" "a/b/Page.md" rooted.fs0).2 q = Some Directory)
    ["/data/a/b"; "/data/a"; "/data"] ∧
  ∃ fs', mkSubDir "/data" "sub/Page.md" rooted.fs0 = (Returns None, fs') ∧
         Stat fs' "/data/sub" = Some Directory.
Proof.
  destruct mkSubDir_makes_directories as [Hall Hsub]. split.
  - apply (Hall "/data" "a/b/Page.md" rooted.fs0 _ tree_like_fs0). by vm_compute.
  - apply (Hsub rooted.fs0); by vm_compute.
Defined.

(** ** Saving and loading *)

(** C4, as the specification states it, fails. The page [P] holds [old];
    the device has no room left. Saving the body [fresh body] cuts the file
    to nothing, which gives three bytes back, writes [fre] and returns the
    error of the short write: the old content is gone. *)
Lemma Save_short_write_truncates :
  let fs := mkFS {[ "/data" := Directory;
                    "/data/P.md" := File [x6f; x6c; x64] 1 ]} 2 0 in
  let body := list_byte_of_string "fresh body" in
  let '(r, fs') := Save (new_page "P" body "") "/data" fs in
  Stat fs "/data/P.md" = Some (File [x6f; x6c; x64] 1) ∧
  r = Returns (Some (PathError "write" "/data/P.md" ENOSPC)) ∧
  Stat fs' "/data/P.md" = Some (File [x66; x72; x65] 3).
Proof. by vm_compute. Qed.

(** C4, amended. [Save] writes the body in place. When it returns no
    error, the file of the page holds the whole body. When the path check
    panics or returns the path-escape error, the file system is as it
    was. In every case the other files are as they were, and a page that
    was there before is as it was or holds a leading part of the new
    body. *)
Theorem Save_in_place (p : Page) (datadir : string) (fs fs' : FS)
    (r : outcome error) :
  Save p datadir fs = (r, fs') →
  let f := page_path datadir (Title p) in
  (r = Returns None → ∃ t, Stat fs' f = Some (File (Body p) t)) ∧
  (r = Panics "slice bounds out of range" ∨ r = Returns (Some path_escape) →
   fs' = fs) ∧
  (∀ c t, Stat fs f = Some (File c t) →
     Stat fs' f = Some (File c t) ∨
     ∃ k t', Stat fs' f = Some (File (take k (Body p)) t')) ∧
  (∀ q c t, q ≠ f →
     nodes fs' !! q = Some (File c t) ↔ nodes fs !! q = Some (File c t)).
Proof.
  intros Hs f. split_and!.
  - intros ->. apply Save_ok in Hs as (t & _ & Ht). eauto.
  - intros Hr. unfold Save in Hs.
    destruct (mkSubDir _ _ fs) as [[[e|]|msg] fs1] eqn:Hm.
    + injection Hs as <- <-. eapply mkSubDir_not_ok; eauto.
    + destruct (WriteFile _ _ fs1) as [err fs2] eqn:Hw. injection Hs as <- <-.
      destruct Hr as [|[= ->]]; [done|].
      unfold WriteFile, OpenFile_trunc, Write, holder_errno in Hw.
      repeat case_match; simplify_eq.
    + injection Hs as <- <-. eapply mkSubDir_not_ok; eauto.
  - intros c t Hf. unfold Save in Hs. fold (page_path datadir (Title p)) in Hs. fold f in Hs.
    destruct (mkSubDir _ _ fs) as [r1 fs1] eqn:Hm.
    apply mkSubDir_grows in Hm as Hg.
    assert (Stat fs1 f = Some (File c t)) as Hf1.
    { apply Stat_File in Hf as [Ha Hn]. apply Stat_File. split; [done|].
      by apply (grows_files fs fs1). }
    destruct r1 as [[e|]|msg]; [injection Hs as <- <-; by left| |injection Hs as <- <-; by left].
    destruct (WriteFile f (Body p) fs1) as [err fs2] eqn:Hw. injection Hs as <- <-.
    apply WriteFile_at in Hw as [[_ ->]|[k Hk]]; [by left|right; eauto].
  - intros q c t Hq. unfold Save in Hs. fold (page_path datadir (Title p)) in Hs. fold f in Hs.
    destruct (mkSubDir _ _ fs) as [r1 fs1] eqn:Hm.
    apply mkSubDir_grows in Hm as Hg.
    rewrite <- (grows_files fs fs1) by done.
    destruct r1 as [[e|]|msg]; [by injection Hs as <- <-| |by injection Hs as <- <-].
    destruct (WriteFile f (Body p) fs1) as [err fs2] eqn:Hw. injection Hs as <- <-.
    by rewrite (WriteFile_frame _ _ _ _ _ q Hw).
Qed.

Lemma Save_in_place_witness :
  ∃ fs',
    Save (new_page "P" [x68; x69] "") "/data" rooted.fs0 = (Returns None, fs') ∧
    ∃ t, Stat fs' "/data/P.md" = Some (File [x68; x69] t).
Proof.
  eexists. split; [by vm_compute|].
  by apply (Save_in_place (new_page "P" [x68; x69] "") "/data"
              rooted.fs0 _ (Returns None) eq_refl).
Defined.

Section LoadPage.
Context (AutoCamelCase : list byte → string → list byte).
Context (blackfriday_Run SanitizeBytes : list byte → list byte).

Local Abbreviation LoadPage :=
  (wiki.LoadPage AutoCamelCase blackfriday_Run SanitizeBytes).

Lemma LoadPage_file title config baseurl fs c t :
  Stat fs (page_path (data config) title) = Some (File c t) →
  ∃ page, LoadPage title config baseurl fs = inl page ∧
          Title page = title ∧ Body page = c ∧ Date page = t ∧
          Brand page = brand config.
Proof.
  intros Hf. unfold wiki.LoadPage, ReadFile.
  fold (page_path (data config) title). rewrite Hf. eauto 10.
Qed.

(** What [LoadPage] finds after a [Save] that returned no error. *)
Lemma Save_then_LoadPage (p : Page) (config : Config) (baseurl : string)
    (fs fs' : FS) :
  Save p (data config) fs = (Returns None, fs') →
  ∃ page, LoadPage (Title p) config baseurl fs' = inl page ∧
          Title page = Title p ∧ Body page = Body p ∧
          clock fs < Date page.
Proof.
  intros (t & Ht & Hf)%Save_ok.
  destruct (LoadPage_file (Title p) config baseurl fs' _ _ Hf)
    as (page & Hl & HT & HB & HD & _).
  exists page. split_and!; [done..|lia].
Qed.


(** C7. Two saves of one title in a row, with bodies [B1] and then [B2],
    both returning no error: [LoadPage] then returns [B2], and so never
    [B1] when the two differ. *)
Theorem Save_twice_last_wins (title : string) (B1 B2 : list byte)
    (brand1 brand2 : string) (config : Config) (baseurl : string)
    (fs fs1 fs2 : FS) :
  Save (new_page title B1 brand1) (data config) fs = (Returns None, fs1) →
  Save (new_page title B2 brand2) (data config) fs1 = (Returns None, fs2) →
  ∃ page, LoadPage title config baseurl fs2 = inl page ∧
          Body page = B2 ∧ (B1 ≠ B2 → Body page ≠ B1).
Proof.
  intros _ (page & Hl & _ & HB & _)%(Save_then_LoadPage _ config baseurl).
  exists page. split_and!; [done|done|]. simpl in HB. congruence.
Qed.

End LoadPage.


Lemma Save_twice_last_wins_witness :
  ∃ page,
    rooted.LoadPage "P" rooted.config0 "/view/"
      (Save (new_page "P" [x42] "") "/data"
         (Save (new_page "P" [x41] "") "/data" rooted.fs0).2).2 = inl page ∧
    Body page = [x42] ∧ Body page ≠ [x41].
Proof.
  destruct (Save_twice_last_wins rooted.AutoCamelCase id id "P" [x41] [x42] "" ""
              rooted.config0 "/view/" rooted.fs0 _ _ eq_refl eq_refl)
    as (page & Hl & HB & Hne).
  exists page. split_and!; [exact Hl|exact HB|by apply Hne].
Defined.

End store.

(** * The handlers *)

Module handlers.
Import GoString os wiki statements os_facts wiki_facts store.

Section Server.
Context (AutoCamelCase : list byte → string → list byte).
Context (blackfriday_Run SanitizeBytes : list byte → list byte).
Context (URL : Type) (url_Parse : string → option URL).
Context (ResolveReference : URL → URL → URL) (URL_String : URL → string).
Context (Exec : string → Page → option string * error).

Local Abbreviation LoadPage :=
  (wiki.LoadPage AutoCamelCase blackfriday_Run SanitizeBytes).
Local Abbreviation parse_and_resolve :=
  (wiki.parse_and_resolve URL url_Parse ResolveReference).
Local Abbreviation render := (wiki.render Exec).
Local Abbreviation EditHandler :=
  (wiki.EditHandler AutoCamelCase blackfriday_Run SanitizeBytes URL url_Parse
     ResolveReference URL_String Exec).
Local Abbreviation SaveHandler :=
  (wiki.SaveHandler URL url_Parse ResolveReference URL_String).
Local Abbreviation ViewHandler :=
  (wiki.ViewHandler AutoCamelCase blackfriday_Run SanitizeBytes URL url_Parse
     ResolveReference URL_String Exec).

Lemma respond_inv e1 e2 w w0 :
  w_resp (respond e1 w) = w_resp w0 ++ [e2] → w_resp w = w_resp w0 → e1 = e2.
Proof.
  simpl. intros H Hw. rewrite Hw in H. by apply app_inv_head in H as [= ->].
Qed.



(** The other side of C8: with a title whose edit URL does not parse,
    [ViewHandler] reports the error and then, for want of a [return],
    goes on to resolve a nil URL. *)
Lemma ViewHandler_unparsed_title (s : Server) (r : Request URL) (p : Params)
    (w : World) (u0 : URL) (e : GoError) :
  let title := TrimLeft_slash (ByName p "title") in
  let baseurl := URL_String (ResolveReference (req_URL r) u0) in
  url_Parse "/view/" = Some u0 →
  LoadPage title (config s) baseurl (w_fs w) = inr e →
  url_Parse ("/edit/" +:+ title) = None →
  ViewHandler s r p w =
    (Panics nil_dereference,
     respond (http_Error "Internal Error" StatusInternalServerError)
       (Inc "n_view" w)).
Proof.
  intros title baseurl H0 Hl Hu.
  unfold wiki.ViewHandler, wiki.parse_and_resolve.
  rewrite H0. simpl. fold title baseurl. rewrite Hl, Hu. done.
Qed.

End Server.





End handlers.

(** * Laws of [path.Clean] and [path.Join] *)

Module path_laws.
Import GoString path path_elements.
Import GoString_facts path_facts.

(** The elements of two paths joined by a slash. *)
Lemma elements_join a b :
  elements (a +:+ "/" +:+ b) =
    ((elements a).1, (elements a).2 ++ (elements b).1 :: (elements b).2).
Proof.
  induction a as [|c a IH].
  - change ("" +:+ "/" +:+ b) with (String "/" b). rewrite elements_cons.
    done.
  - rewrite sapp_cons, !elements_cons, IH. by destruct (Ascii.eqb c "/").
Qed.

(** What follows a slash is cleaned from the state the loop is in at
    that slash. *)
Lemma clean_state_join p f :
  p ≠ "" →
  clean_state (p +:+ "/" +:+ f) =
    ((clean_state p).1,
     fold_left (elem_step (clean_state p).1)
       ((elements f).1 :: (elements f).2) (clean_state p).2).
Proof.
  intros Hp. destruct p as [|c t]; [done|]. rewrite sapp_cons.
  unfold clean_state. destruct (Ascii.eqb c "/").
  - rewrite elements_join. destruct (elements t) as [a l].
    cbn [fst snd]. by rewrite app_comm_cons, fold_left_app.
  - rewrite <- sapp_cons, elements_join.
    destruct (elements (String c t)) as [a l].
    cbn [fst snd]. by rewrite app_comm_cons, fold_left_app.
Qed.

Lemma clean_state_Clean p : clean_state (Clean p) = clean_state p.
Proof.
  destruct (Clean_shape p) as (rooted & k & es & Hes & Hk & -> & ->).
  by apply clean_state_cleaned.
Qed.

Lemma Clean_nonempty p : Clean p ≠ "".
Proof.
  destruct (Clean_shape p) as (rooted & k & es & _ & _ & _ & ->).
  apply cleaned_nonempty.
Qed.

Lemma Join_two d f : d ≠ "" → Join [d; f] = Clean (d +:+ "/" +:+ f).
Proof. intros Hd. cbn [Join]. by rewrite bool_decide_eq_false_2. Qed.

Lemma Join_Clean d f : d ≠ "" → Join [Clean d; f] = Join [d; f].
Proof.
  intros Hd. rewrite (Join_two d) by done.
  rewrite (Join_two (Clean d)) by apply Clean_nonempty.
  rewrite (Clean_by_elements (d +:+ _)), (Clean_by_elements (Clean d +:+ _)).
  unfold Clean_elements.
  rewrite (clean_state_join d) by done.
  rewrite (clean_state_join (Clean d)) by apply Clean_nonempty.
  by rewrite clean_state_Clean.
Qed.


(** [strings.TrimLeft(s, "/")] leaves no slash in front, so that the
    file of a trimmed title is not rooted. *)
Lemma TrimLeft_slash_file s :
  ∃ c u, TrimLeft_slash s +:+ wiki.FileExtension = String c u ∧
         Ascii.eqb c "/" = false.
Proof.
  induction s as [|c s IH]; simpl.
  - by exists "."%char, "md".
  - destruct (Ascii.eqb c "/") eqn:Hc; [done|].
    exists c, (s +:+ wiki.FileExtension). by rewrite sapp_cons.
Qed.

(** A path that is not rooted is cleaned the same under [./]. *)
Lemma Clean_dot_slash c u :
  Ascii.eqb c "/" = false → Clean ("./" +:+ String c u) = Clean (String c u).
Proof.
  intros Hc. rewrite !Clean_by_elements. unfold Clean_elements.
  change ("./" +:+ String c u) with ("." +:+ "/" +:+ String c u).
  rewrite clean_state_join by done.
  change (clean_state ".") with (false, start false). cbn [fst snd].
  unfold clean_state. rewrite Hc. by destruct (elements (String c u)).
Qed.

Lemma byte_at_last a b :
  b ≠ "" →
  byte_at (a +:+ b) (String.length (a +:+ b) - 1) =
    byte_at b (String.length b - 1).
Proof.
  intros Hb. rewrite length_sapp.
  replace (String.length a + String.length b - 1)
    with (String.length a + (String.length b - 1)).
  - apply byte_at_app_r.
  - destruct b; [done|]. simpl. lia.
Qed.

Lemma last_byte_elem e :
  e = ".." ∨ name e → byte_at e (String.length e - 1) ≠ "/"%char.
Proof.
  intros [->|He]; [done|]. destruct (os_facts.name_length e He) as [n Hn].
  apply byte_at_no_slash; [apply He|lia].
Qed.

Lemma strings_Join_last_byte l :
  l ≠ [] → Forall (λ e, e = ".." ∨ name e) l →
  byte_at (strings_Join l "/") (String.length (strings_Join l "/") - 1)
    ≠ "/"%char.
Proof.
  induction l as [|e l IH] using rev_ind; [done|]. intros _ Hl.
  apply Forall_app in Hl as [_ [He _]%Forall_cons].
  assert (e ≠ "") as Hne by (destruct He as [->|[? _]]; done).
  destruct (decide (l = [])) as [->|Hl'].
  - by apply last_byte_elem.
  - rewrite strings_Join_snoc by done.
    rewrite <- sapp_assoc, byte_at_last by done. by apply last_byte_elem.
Qed.

Lemma shape_elems k es :
  Forall name es → Forall (λ e, e = ".." ∨ name e) (replicate k ".." ++ es).
Proof.
  intros Hes. apply Forall_app. split.
  - apply Forall_replicate. by left.
  - eapply Forall_impl; [done|]. by right.
Qed.

(** What [Clean] returns is never empty, is left as it is by [Clean], is
    rooted when the path is, ends in a slash only when it is the root, and
    is made of the elements [..] (none under a root) followed by names,
    or is [.]. *)
Theorem Clean_canonical (p : string) :
  Clean p ≠ "" ∧
  Clean (Clean p) = Clean p ∧
  ((∃ t, Clean p = String "/" t) ↔ (∃ t, p = String "/" t)) ∧
  (Clean p = "/" ∨
   byte_at (Clean p) (String.length (Clean p) - 1) ≠ "/"%char) ∧
  (∃ rooted k es,
     Forall name es ∧ (rooted = true → k = 0) ∧
     Clean p = cleaned rooted k es).
Proof.
  split; [apply Clean_nonempty|]. split; [apply Clean_idempotent|].
  destruct (Clean_shape p) as (rooted & k & es & Hes & Hk & Hst & Hc).
  split_and!.
  - assert (rooted = true ↔ ∃ t, p = String "/" t) as <-.
    { destruct p as [|c t]; [injection Hst as <-; split; [done|by intros [? ?]]|].
      unfold clean_state in Hst. destruct (elements _) in Hst.
      injection Hst as <- _. split.
      - intros ->%Ascii.eqb_eq. by eexists.
      - intros [? [= -> _]]. done. }
    rewrite Hc. unfold cleaned, shape. destruct rooted.
    + split; [done|]. intros _. by eexists.
    + split; [|done]. intros [t Ht]. exfalso. cbn [String.append] in Ht.
      destruct (decide (replicate k ".." ++ es = [])) as [Hem|Hem].
      * rewrite Hem in Ht. done.
      * destruct (replicate k ".." ++ es) as [|e l] eqn:El; [done|].
        assert (e = ".." ∨ name e) as He.
        { pose proof (shape_elems k es Hes) as Hall. rewrite El in Hall.
          by apply Forall_cons in Hall as [? _]. }
        assert (∃ c t', strings_Join (e :: l) "/" = String c t' ∧
                        Ascii.eqb c "/" = false) as (c & t' & Hj & Hcs).
        { destruct He as [->|He].
          - destruct l as [|e2 l]; [by exists "."%char, "."|].
            by exists "."%char, ("." +:+ "/" +:+ strings_Join (e2 :: l) "/").
          - destruct (name_first e He) as (c & t' & -> & Hcs).
            destruct l as [|e2 l]; [by exists c, t'|].
            exists c, (t' +:+ "/" +:+ strings_Join (e2 :: l) "/").
            split; [|done]. rewrite strings_Join_cons by done.
            apply sapp_cons. }
        rewrite Hj in Ht. simpl in Ht. injection Ht as -> _. done.
  - rewrite Hc. unfold cleaned.
    destruct (decide (replicate k ".." ++ es = [])) as [Hem|Hem].
    + unfold shape. rewrite Hem. destruct rooted; [by left|by right].
    + right. fold (cleaned rooted k es).
      rewrite cleaned_shape by (by apply shape_nonempty).
      unfold shape. rewrite byte_at_last.
      * apply strings_Join_last_byte; [done|by apply shape_elems].
      * apply strings_Join_nonempty; [done|by apply elems_nonempty].
  - by exists rooted, k, es.
Qed.

End path_laws.

(** * Making directories, all or nothing *)

Module os_laws.
Import GoString path path_elements os wiki statements.
Import GoString_facts path_facts os_facts wiki_facts.

(** The defining equation of [ancestors]. *)
Lemma ancestors_eq p :
  ancestors p =
    match parent_of p with
    | Some q => q :: ancestors q
    | None => []
    end.
Proof.
  funelim (ancestors p); clear Heqcall; try clear Hind;
    repeat match goal with
           | H : ?l = _ |- context [?l] => rewrite H
           end; done.
Qed.

Lemma substring_0_length n s :
  n ≤ String.length s → String.length (String.substring 0 n s) = n.
Proof.
  revert n. induction s as [|c s IH]; intros [|n] Hn; simpl in *; try lia.
  rewrite IH; lia.
Qed.

Lemma parent_of_nonempty p q : parent_of p = Some q → q ≠ "".
Proof.
  unfold parent_of. case_bool_decide as Hj; [|done]. intros [= <-] Hq.
  set (i := scan_back IsPathSeparator p (String.length p)) in *.
  set (j := scan_back (λ c, negb (IsPathSeparator c)) p i) in *.
  pose proof (scan_back_le (λ c, negb (IsPathSeparator c)) p i).
  pose proof (scan_back_le IsPathSeparator p (String.length p)).
  assert (String.length (String.substring 0 (j - 1) p) = j - 1) as Hl
    by (apply substring_0_length; lia).
  rewrite Hq in Hl. simpl in Hl. lia.
Qed.

(** [Mkdir] and the second look succeed on a name that is not a file and
    whose holder is a directory. *)
Lemma mkdir_last_succeeds p fs :
  p ≠ "" → (∀ c t, Stat fs p ≠ Some (File c t)) → holder_errno fs p = None →
  ∃ fs', mkdir_last p fs = (None, fs').
Proof.
  intros Hp Hnf Hh. unfold mkdir_last, Mkdir.
  rewrite bool_decide_eq_false_2 by done.
  destruct (Stat fs p) as [[c t|]|] eqn:Hs.
  - by destruct (Hnf c t).
  - rewrite Hs. by eexists.
  - rewrite Hh. by eexists.
Qed.


Lemma no_file_spec fs q : no_file fs q ↔ ∀ c t, Stat fs q ≠ Some (File c t).
Proof.
  unfold no_file. destruct (Stat fs q) as [[c t|]|]; split; try done.
  intros H. by destruct (H c t).
Qed.


(** [MkdirAll] under a store that is a tree: it succeeds when no name on
    the way is a file, and fails on the first file, with nothing made. *)
Lemma MkdirAll_tree path fs :
  tree_like fs → path ≠ "" →
  (Forall (no_file fs) (path :: ancestors path) →
   ∃ fs', MkdirAll path fs = (None, fs')) ∧
  (¬ Forall (no_file fs) (path :: ancestors path) →
   ∃ q c t, q ∈ path :: ancestors path ∧ Stat fs q = Some (File c t) ∧
            MkdirAll path fs = (Some (PathError "mkdir" q ENOTDIR), fs)).
Proof.
  intros Hwf. remember (String.length path) as n eqn:Hn. revert path Hn.
  induction n as [n IH] using lt_wf_ind. intros path -> Hne.
  rewrite MkdirAll_eq, ancestors_eq.
  assert (∀ q, Stat fs q = None → no_file fs q) as HN
    by (intros q Hq; unfold no_file; by rewrite Hq).
  assert (∀ q, Stat fs q = Some Directory → no_file fs q) as HD
    by (intros q Hq; unfold no_file; by rewrite Hq).
  destruct (Stat fs path) as [[c t|]|] eqn:Hs.
  - split.
    + intros [Hp _]%Forall_cons. unfold no_file in Hp. by rewrite Hs in Hp.
    + intros _. exists path, c, t. split_and!; [apply elem_of_cons; by left|done..].
  - split; [by eexists|]. intros Hnot. destruct Hnot.
    constructor; [by apply HD|].
    rewrite <- ancestors_eq.
    eapply Forall_impl; [by apply ancestors_dirs|]. done.
  - destruct (parent_of path) as [q|] eqn:Hq.
    + destruct (IH (String.length q) (parent_of_shorter _ _ Hq) q eq_refl
                  (parent_of_nonempty _ _ Hq)) as [Hok Hfail].
      split.
      * intros [_ Hall]%Forall_cons. destruct (Hok Hall) as [fs' Hm].
        rewrite Hm. apply mkdir_last_succeeds; [done| |].
        -- intros c t Hf. apply Stat_File in Hf as [_ Hf].
           apply (store.grows_files fs fs') in Hf; [|by eapply MkdirAll_grows].
           apply Stat_None in Hs. congruence.
        -- unfold holder_errno. rewrite Hq.
           by rewrite (MkdirAll_ok _ _ _ Hm).
      * intros Hnot. destruct Hfail as (q' & c & t & Hin & Hf & Hm).
        { intros Hall. apply Hnot. constructor; [by apply HN|done]. }
        exists q', c, t. rewrite Hm. split_and!; [|done..].
        apply elem_of_cons. by right.
    + split.
      * intros _. apply mkdir_last_succeeds; [done|intros c t; congruence|].
        unfold holder_errno. by rewrite Hq.
      * intros Hnot. destruct Hnot. constructor; [by apply HN|done].
Qed.

(** [Mkdir] and [MkdirAll] write at the names they are given and above
    them only. *)
Lemma Mkdir_frame p fs err fs' q :
  Mkdir p fs = (err, fs') → q ≠ p → nodes fs' !! q = nodes fs !! q.
Proof.
  unfold Mkdir. intros Hm Hq. case_bool_decide; [by injection Hm as <- <-|].
  destruct (Stat fs p); [by injection Hm as <- <-|].
  destruct (holder_errno fs p); injection Hm as <- <-; [done|].
  simpl. by rewrite lookup_insert_ne.
Qed.

Lemma mkdir_last_frame p fs err fs' q :
  mkdir_last p fs = (err, fs') → q ≠ p → nodes fs' !! q = nodes fs !! q.
Proof.
  unfold mkdir_last. destruct (Mkdir p fs) as [[e|] fs1] eqn:Hm; intros Hr Hq.
  - destruct (Stat fs1 p) as [[]|]; injection Hr as <- <-;
      by eapply Mkdir_frame.
  - injection Hr as <- <-. by eapply Mkdir_frame.
Qed.

Lemma MkdirAll_longer path fs err fs' q :
  MkdirAll path fs = (err, fs') → String.length path < String.length q →
  nodes fs' !! q = nodes fs !! q.
Proof.
  remember (String.length path) as n eqn:Hn. revert path Hn err fs'.
  induction n as [n IH] using lt_wf_ind. intros path -> err fs'.
  rewrite MkdirAll_eq. intros Hr Hq.
  assert (q ≠ path) as Hne by (intros ->; lia).
  destruct (Stat fs path) as [[c t|]|]; [by injection Hr as <- <-..|].
  destruct (parent_of path) as [parent|] eqn:Hp.
  - pose proof (parent_of_shorter _ _ Hp) as Hlt.
    destruct (MkdirAll parent fs) as [[e|] fs1] eqn:Hm.
    + injection Hr as <- <-. eapply (IH _ Hlt parent eq_refl); [done|lia].
    + rewrite (mkdir_last_frame _ _ _ _ q Hr) by done.
      eapply (IH _ Hlt parent eq_refl); [done|lia].
  - by eapply mkdir_last_frame.
Qed.

(** [WriteFile] returns no error on a name that is not a directory and
    lies in one, when the device has room for the data once the old file
    is cut. *)
Lemma WriteFile_succeeds name data fs :
  name ≠ "" → Stat fs name ≠ Some Directory →
  (Stat fs name = None → holder_errno fs name = None) →
  length data ≤
    free fs + match Stat fs name with
              | Some (File old _) => length old
              | _ => 0
              end →
  ∃ fs', WriteFile name data fs = (None, fs').
Proof.
  intros Hne Hnd Hh Hroom. unfold WriteFile, OpenFile_trunc.
  rewrite bool_decide_eq_false_2 by done.
  destruct (Stat fs name) as [[old t|]|] eqn:Hs; [|by destruct Hnd|].
  - unfold Write. cbn [free]. rewrite length_take.
    rewrite bool_decide_eq_false_2 by lia. eauto.
  - rewrite Hh by done.
    unfold Write, put. cbn [free]. rewrite length_take.
    rewrite bool_decide_eq_false_2 by lia. eauto.
Qed.

(** [WriteFile] keeps the store a tree. *)
Lemma WriteFile_tree_like name data fs err fs' :
  tree_like fs → WriteFile name data fs = (err, fs') → tree_like fs'.
Proof.
  intros Hwf Hw. unfold WriteFile in Hw.
  destruct (OpenFile_trunc name fs) as [[e|] fs1] eqn:Ho.
  { apply OpenFile_trunc_err in Ho as ->. by injection Hw as <- <-. }
  assert (Stat fs name ≠ Some Directory ∧
          (∀ q, parent_of name = Some q → Stat fs q = Some Directory))
    as [Hnd Hpar].
  { unfold OpenFile_trunc in Ho. case_bool_decide; [done|].
    destruct (Stat fs name) as [[old t|]|] eqn:Hs; [|done|].
    - split; [done|]. intros q Hq. apply Stat_File in Hs as [_ Hs]. eauto.
    - split; [done|]. intros q Hq. unfold holder_errno in Ho.
      rewrite Hq in Ho. by destruct (Stat fs q) as [[]|]. }
  apply OpenFile_trunc_ok in Ho as (Ha & _ & Hn).
  unfold Write in Hw. injection Hw as _ <-.
  assert (∀ q, Stat fs q = Some Directory →
          Stat {| nodes := <[name := File (take (free fs1) data) (clock fs1)]>
                             (nodes fs1);
                  clock := S (clock fs1);
                  free := free fs1 - length (take (free fs1) data) |} q =
            Some Directory) as Hkeep.
  { intros q Hq. unfold Stat in *. cbn [nodes]. destruct (always_dir q); [done|].
    rewrite lookup_insert_ne, Hn, lookup_insert_ne; [done|..];
      intros <-; by rewrite Ha in Hnd. }
  intros p n q Hp Hq. apply Hkeep. cbn [nodes] in Hp.
  destruct (decide (p = name)) as [->|Hne]; [by apply Hpar|].
  rewrite lookup_insert_ne, Hn, lookup_insert_ne in Hp by done. eauto.
Qed.

Lemma subdir_of_nonempty dir file : subdir_of dir file ≠ "".
Proof. apply path_laws.Clean_nonempty. Qed.


Lemma tree_like_blocked :
  tree_like (mkFS {[ "/data" := Directory; "/data/a" := File [] 1 ]} 5 100).
Proof.
  intros p n q Hp Hq. cbn [nodes] in Hp.
  apply lookup_insert_Some in Hp as [[<- _]|[_ Hp]]; [done|].
  apply lookup_singleton_Some in Hp as [<- _].
  by injection Hq as <-.
Qed.


End os_laws.

(** * Pages and titles *)

Module pages.
Import GoString path path_elements os wiki statements.
Import GoString_facts path_facts os_facts wiki_facts.

(** What [Save] leaves of the files it does not write. *)
Lemma Save_frame p datadir fs r fs' q c t :
  Save p datadir fs = (r, fs') → q ≠ page_path datadir (Title p) →
  Stat fs q = Some (File c t) → Stat fs' q = Some (File c t).
Proof.
  unfold Save. fold (page_path datadir (Title p)). intros Hs Hq Hf.
  apply Stat_File in Hf as [Ha Hf]. apply Stat_File. split; [done|].
  destruct (mkSubDir datadir _ fs) as [[[e|]|msg] fs1] eqn:Hm.
  - injection Hs as <- <-.
    by apply (store.grows_files fs fs1); [eapply mkSubDir_grows|].
  - destruct (WriteFile _ _ fs1) as [err fs2] eqn:Hw. injection Hs as <- <-.
    rewrite (WriteFile_frame _ _ _ _ _ q Hw) by done.
    by apply (store.grows_files fs fs1); [eapply mkSubDir_grows|].
  - injection Hs as <- <-.
    by apply (store.grows_files fs fs1); [eapply mkSubDir_grows|].
Qed.

(** The paths of a file made of names under a data directory that does
    not clean to [.]: the directory [mkSubDir] checks, and the file [Save]
    writes in it. *)
Lemma hierarchical_shape datadir ns nm :
  Forall name ns → name nm → Clean datadir ≠ "." →
  ∃ rooted k es,
    Forall name (es ++ ns) ∧ (rooted = true → k = 0) ∧
    shape rooted k es ≠ "" ∧
    Clean datadir = shape rooted k es ∧
    subdir_of datadir (strings_Join (ns ++ [nm]) "/") =
      shape rooted k (es ++ ns) ∧
    Join [datadir; strings_Join (ns ++ [nm]) "/"] =
      shape rooted k ((es ++ ns) ++ [nm]).
Proof.
  intros Hns Hnm Hroot.
  destruct (Clean_shape datadir) as (rooted & k & es & Hes & Hk & _ & Hc).
  assert (shape rooted k es ≠ "") as Hne.
  { intros He. apply Hroot. rewrite Hc. unfold cleaned. by rewrite He. }
  assert (Forall name (es ++ ns)) as Hall by by apply Forall_app.
  assert (Forall name (ns ++ [nm])) as Hall'.
  { apply Forall_app. split; [done|]. by apply Forall_singleton. }
  assert (shape rooted k (es ++ ns) ≠ "") as Hne'.
  { rewrite shape_app. by destruct (shape rooted k es). }
  assert (shape rooted k ((es ++ ns) ++ [nm]) ≠ "") as Hne''.
  { rewrite shape_app. by destruct (shape rooted k (es ++ ns)). }
  assert (Join [Clean datadir; strings_Join (ns ++ [nm]) "/"] =
          shape rooted k ((es ++ ns) ++ [nm])) as Hj.
  { rewrite Hc, Join_names by done. rewrite List.app_assoc.
    by apply cleaned_shape. }
  exists rooted, k, es. split_and!; [done..| | |].
  - rewrite Hc. by apply cleaned_shape.
  - unfold subdir_of. rewrite Hj.
    rewrite <- (cleaned_shape rooted k ((es ++ ns) ++ [nm])) by done.
    rewrite Clean_cleaned, cleaned_shape; [|done| |done].
    + rewrite Dir_shape_snoc by done. by apply cleaned_shape.
    + apply Forall_app. split; [done|]. by apply Forall_singleton.
  - rewrite <- Hj. symmetry. apply path_laws.Join_Clean.
    intros ->. by apply Hroot.
Qed.

(** The file [Save] writes lies in the directory [mkSubDir] made. *)
Lemma holder_errno_snoc rooted k l nm fs :
  Forall name l → name nm →
  (shape rooted k l ≠ "" → Stat fs (shape rooted k l) = Some Directory) →
  holder_errno fs (shape rooted k (l ++ [nm])) = None.
Proof.
  intros Hl Hnm Hd. unfold holder_errno. rewrite shape_snoc.
  destruct (decide (replicate k ".." ++ l = [])) as [Hem|Hem].
  - rewrite (bool_decide_eq_true_2 (_ = [])) by done.
    apply app_eq_nil in Hem as [Hk0 ->]. destruct k; [|done]. destruct rooted.
    + change (shape true 0 [] +:+ nm) with ("" +:+ "/" +:+ nm).
      by rewrite (proj1 (parent_of_name "" nm Hnm)).
    + change (shape false 0 [] +:+ nm) with nm.
      by rewrite (proj2 (parent_of_name "" nm Hnm)).
  - rewrite (bool_decide_eq_false_2 (_ = [])) by done.
    rewrite sapp_assoc, (proj1 (parent_of_name _ nm Hnm)).
    pose proof (shape_nonempty rooted k l Hl Hem) as Hne.
    rewrite bool_decide_eq_false_2 by done. by rewrite Hd.
Qed.

Lemma length_shape_snoc rooted k l nm :
  name nm →
  String.length (shape rooted k l) < String.length (shape rooted k (l ++ [nm])).
Proof.
  intros Hnm. destruct (name_length nm Hnm) as [n Hn].
  rewrite shape_snoc. case_bool_decide; rewrite !length_sapp; lia.
Qed.


Lemma Save_ok_inv p datadir fs fs' :
  Save p datadir fs = (Returns None, fs') →
  ∃ fs1,
    mkSubDir datadir (Title p +:+ FileExtension) fs = (Returns None, fs1) ∧
    WriteFile (page_path datadir (Title p)) (Body p) fs1 = (None, fs').
Proof.
  unfold Save. fold (page_path datadir (Title p)).
  destruct (mkSubDir datadir _ fs) as [[[e|]|msg] fs1] eqn:Hm; [done| |done].
  destruct (WriteFile _ _ fs1) as [err fs2] eqn:Hw. intros [= -> <-]. eauto.
Qed.

Lemma WriteFile_ok_inv name data fs fs' :
  WriteFile name data fs = (None, fs') →
  name ≠ "" ∧ Stat fs name ≠ Some Directory ∧
  free fs' + length data =
    free fs + match Stat fs name with
              | Some (File old _) => length old
              | _ => 0
              end.
Proof.
  unfold WriteFile, OpenFile_trunc. case_bool_decide as Hne; [done|].
  destruct (Stat fs name) as [[old t|]|] eqn:Hs; [|done|].
  - unfold Write. cbn [free nodes clock]. rewrite length_take.
    case_bool_decide; [done|]. intros [= <-]. cbn [free]. split_and!; [done..|lia].
  - destruct (holder_errno fs name); [done|].
    unfold Write, put. cbn [free nodes clock]. rewrite length_take.
    case_bool_decide; [done|]. intros [= <-]. cbn [free]. split_and!; [done..|lia].
Qed.

(** A page that was saved can be saved again: after a [Save] that
    returned no error, a [Save] under the same title returns no error for
    every body the device has room for once the page is cut, makes no
    directory, and leaves the new body in the file. *)
Theorem saved_page_can_be_saved_again (p p' : Page) (datadir : string)
    (fs fs1 : FS) :
  Save p datadir fs = (Returns None, fs1) →
  Title p' = Title p →
  length (Body p') ≤ free fs1 + length (Body p) →
  ∃ fs2,
    Save p' datadir fs1 = (Returns None, fs2) ∧
    Stat fs2 (page_path datadir (Title p)) =
      Some (File (Body p') (S (clock fs1))) ∧
    ∀ q, q ≠ page_path datadir (Title p) → nodes fs2 !! q = nodes fs1 !! q.
Proof.
  intros Hs HT Hroom.
  destruct (Save_ok_inv _ _ _ _ Hs) as (fs0 & Hm & Hw).
  set (f := page_path datadir (Title p)) in *.
  pose proof (mkSubDir_ok _ _ _ _ Hm) as Hmk.
  pose proof (MkdirAll_ok _ _ _ Hmk) as Hd.
  set (sd := subdir_of datadir (Title p +:+ FileExtension)) in *.
  destruct (WriteFile_ok_inv _ _ _ _ Hw) as (Hne & Hnd & _).
  assert (sd ≠ f) as Hsf by (intros Heq; by rewrite Heq in Hd).
  assert (Stat fs1 sd = Some Directory) as Hd1.
  { unfold Stat in *. destruct (always_dir sd); [done|].
    by rewrite (WriteFile_frame _ _ _ _ _ sd Hw). }
  pose proof (WriteFile_ok _ _ _ _ Hw) as Hf.
  assert (mkSubDir datadir (Title p' +:+ FileExtension) fs1 = (Returns None, fs1))
    as Hm1.
  { rewrite HT.
    pose proof (store.mkSubDir_cases datadir (Title p +:+ FileExtension) fs) as H0.
    pose proof (store.mkSubDir_cases datadir (Title p +:+ FileExtension) fs1) as H1.
    cbv zeta in H0, H1. fold sd in H0, H1. rewrite H1. clear H1.
    rewrite H0 in Hm. case_bool_decide; [done|].
    destruct (String.prefix _ sd); [|done].
    by rewrite MkdirAll_fast. }
  destruct (os_laws.WriteFile_succeeds f (Body p') fs1) as [fs2 Hw2].
  - done.
  - by rewrite Hf.
  - by rewrite Hf.
  - rewrite Hf. lia.
  - exists fs2. split_and!.
    + unfold Save. rewrite Hm1, HT.
      change (Join [datadir; Title p +:+ FileExtension]) with f.
      by rewrite Hw2.
    + by apply WriteFile_ok.
    + intros q Hq. by eapply WriteFile_frame.
Qed.

Section LoadPage.
Context (AutoCamelCase : list byte → string → list byte).
Context (blackfriday_Run SanitizeBytes : list byte → list byte).

Local Abbreviation LoadPage :=
  (wiki.LoadPage AutoCamelCase blackfriday_Run SanitizeBytes).

(** [LoadPage] looks at the file of the title only. *)
Lemma LoadPage_Stat title config baseurl fs fs' :
  Stat fs' (page_path (data config) title) =
    Stat fs (page_path (data config) title) →
  LoadPage title config baseurl fs' = LoadPage title config baseurl fs.
Proof.
  intros Hs. unfold wiki.LoadPage, ReadFile.
  fold (page_path (data config) title). by rewrite Hs.
Qed.

Lemma LoadPage_inl title config baseurl fs page :
  LoadPage title config baseurl fs = inl page →
  Stat fs (page_path (data config) title) =
    Some (File (Body page) (Date page)).
Proof.
  unfold wiki.LoadPage, ReadFile. fold (page_path (data config) title).
  destruct (Stat fs _) as [[c t|]|]; [|done..]. by intros [= <-].
Qed.


(** Saving one page leaves every other page as it was: a page that
    [LoadPage] returned before a [Save] to another file is returned after
    it, with the same bytes and the same date, whatever the [Save] came
    to. *)
Theorem Save_keeps_other_pages (p : Page) (config : Config)
    (baseurl title : string) (fs fs' : FS) (r : outcome error)
    (page : Page) :
  Save p (data config) fs = (r, fs') →
  page_path (data config) title ≠ page_path (data config) (Title p) →
  LoadPage title config baseurl fs = inl page →
  LoadPage title config baseurl fs' = inl page.
Proof.
  intros Hs Hne Hl. rewrite <- Hl. apply LoadPage_Stat.
  apply LoadPage_inl in Hl. rewrite Hl.
  by apply (Save_frame _ _ _ _ _ _ _ _ Hs).
Qed.

(** The title is no key: two titles whose files join to the same path
    name the same page. What was saved under one is loaded under the
    other, with the title it was asked under. *)
Theorem title_alias (p : Page) (config : Config) (baseurl title : string)
    (fs fs' : FS) :
  page_path (data config) title = page_path (data config) (Title p) →
  Save p (data config) fs = (Returns None, fs') →
  ∃ page, LoadPage title config baseurl fs' = inl page ∧
          Title page = title ∧ Body page = Body p.
Proof.
  intros Hp (t & _ & Hf)%Save_ok. rewrite <- Hp in Hf.
  destruct (store.LoadPage_file AutoCamelCase blackfriday_Run SanitizeBytes
              title config baseurl fs' _ _ Hf) as (page & Hl & HT & HB & _).
  eauto.
Qed.

End LoadPage.

Lemma mkSubDir_tree_like dir file fs r fs' :
  tree_like fs → mkSubDir dir file fs = (r, fs') → tree_like fs'.
Proof.
  intros Hwf. unfold mkSubDir. destruct (slice _ _ _); [|by intros [= <- <-]].
  case_bool_decide; [by intros [= <- <-]|].
  destruct (MkdirAll _ fs) as [err fs1] eqn:Hm. intros [= <- <-].
  by eapply MkdirAll_tree_like.
Qed.

Lemma Save_tree_like p datadir fs r fs' :
  tree_like fs → Save p datadir fs = (r, fs') → tree_like fs'.
Proof.
  intros Hwf. unfold Save.
  destruct (mkSubDir datadir _ fs) as [[[e|]|msg] fs1] eqn:Hm.
  - intros [= <- <-]. by eapply mkSubDir_tree_like.
  - destruct (WriteFile _ _ fs1) as [err fs2] eqn:Hw. intros [= <- <-].
    eapply os_laws.WriteFile_tree_like; [|done]. by eapply mkSubDir_tree_like.
  - intros [= <- <-]. by eapply mkSubDir_tree_like.
Qed.

(** The check and the write agree on the path, for a data directory that
    is not the empty string: the path [mkSubDir] cleans and checks is the
    path [Save] writes, and the directory [mkSubDir] makes is the directory
    of that path. With an empty data directory and a file that begins with
    a slash they part: the check looks at [.], the write goes to the
    root. *)
Theorem checked_path_is_written_path :
  (∀ datadir file : string,
     datadir ≠ "" →
     Clean (Join [Clean datadir; file]) = Join [datadir; file] ∧
     subdir_of datadir file = Dir (Join [datadir; file])) ∧
  (∀ datadir raw : string,
     let title := TrimLeft_slash raw in
     Clean (Join [Clean datadir; title +:+ FileExtension]) =
       page_path datadir title ∧
     subdir_of datadir (title +:+ FileExtension) =
       Dir (page_path datadir title)) ∧
  (subdir_of "" "/x.md" = "." ∧ page_path "" "/x" = "/x.md" ∧
   Dir (page_path "" "/x") = "/").
Proof.
  assert (∀ datadir file, datadir ≠ "" →
            Clean (Join [Clean datadir; file]) = Join [datadir; file]) as Hgen.
  { intros datadir file Hd. rewrite path_laws.Join_Clean by done.
    cbn [Join]. rewrite bool_decide_eq_false_2 by done.
    apply Clean_idempotent. }
  assert (∀ datadir raw,
            Clean (Join [Clean datadir; TrimLeft_slash raw +:+ FileExtension]) =
              page_path datadir (TrimLeft_slash raw)) as Htrim.
  { intros datadir raw. unfold page_path.
    destruct (decide (datadir = "")) as [->|Hd]; [|by apply Hgen].
    destruct (path_laws.TrimLeft_slash_file raw) as (c & u & -> & Hc).
    change (Clean "") with ".". cbn [Join].
    rewrite (bool_decide_eq_false_2 ("." = "")) by done.
    rewrite (bool_decide_eq_true_2 ("" = "")) by done.
    rewrite (bool_decide_eq_false_2 (String c u = "")) by done.
    change (strings_Join ["."; String c u] "/") with ("./" +:+ String c u).
    change (strings_Join [String c u] "/") with (String c u).
    rewrite path_laws.Clean_dot_slash by auto. apply Clean_idempotent. }
  split; [|split; [|done]].
  - intros datadir file Hd. unfold subdir_of. by rewrite Hgen.
  - intros datadir raw title. subst title. unfold subdir_of.
    by rewrite Htrim.
Qed.

Lemma checked_path_is_written_path_witness :
  Clean (Join [Clean "./checkout/"; "a/../B.md"]) = "checkout/B.md" ∧
  subdir_of "./checkout/" "a/../B.md" = "checkout".
Proof.
  destruct checked_path_is_written_path as [H _].
  destruct (H "./checkout/" "a/../B.md") as [H1 H2]; [done|].
  split; [by rewrite H1|by rewrite H2].
Defined.


Lemma Save_keeps_other_pages_witness :
  let fs := mkFS {[ "/data" := Directory; "/data/A.md" := File [x41] 1 ]} 5 100 in
  rooted.LoadPage "A" rooted.config0 "/view/"
    (Save (new_page "B" [x42] "") "/data" fs).2 =
  inl {| Title := "A"; Body := [x41]; HTML := "A"; Brand := "Wiki"; Date := 1 |}.
Proof.
  intros fs.
  by apply (Save_keeps_other_pages rooted.AutoCamelCase id id
              (new_page "B" [x42] "") rooted.config0 "/view/" "A" fs _
              (Save (new_page "B" [x42] "") "/data" fs).1).
Defined.

Lemma title_alias_witness :
  ∃ page,
    rooted.LoadPage "B" rooted.config0 "/view/"
      (Save (new_page "a/../B" [x68; x69] "") "/data" rooted.fs0).2 = inl page ∧
    Title page = "B" ∧ Body page = [x68; x69].
Proof.
  by apply (title_alias rooted.AutoCamelCase id id
              (new_page "a/../B" [x68; x69] "") rooted.config0 "/view/" "B"
              rooted.fs0).
Defined.


Lemma saved_page_can_be_saved_again_witness :
  ∃ fs2,
    Save (new_page "P" [x42; x43] "") "/data"
      (Save (new_page "P" [x41] "") "/data" rooted.fs0).2 =
      (Returns None, fs2) ∧
    Stat fs2 "/data/P.md" = Some (File [x42; x43] 8).
Proof.
  destruct (saved_page_can_be_saved_again (new_page "P" [x41] "")
              (new_page "P" [x42; x43] "") "/data" rooted.fs0
              (Save (new_page "P" [x41] "") "/data" rooted.fs0).2)
    as (fs2 & Hs & Hf & _); [done|done|vm_compute; lia|].
  exists fs2. split; [exact Hs|exact Hf].
Defined.

End pages.

(** * Reading outside the data directory *)

Module escapes.
Import GoString path path_elements os wiki statements.
Import GoString_facts path_facts os_facts wiki_facts.

(** One step up from a directory under the root, and a name from there. *)
Lemma Join_up_from_root d nmf :
  name d → name nmf →
  Clean ("/" +:+ d) = "/" +:+ d ∧
  Join ["/" +:+ d; "../" +:+ nmf] = "/" +:+ nmf ∧
  Dir ("/" +:+ nmf) = "/".
Proof.
  intros Hd Hn.
  assert (Forall name [d]) as Hds by by apply Forall_singleton.
  assert ("/" +:+ d = shape true 0 [d]) as Hsh by done.
  assert (shape true 0 [d] ≠ "") as Hne by done.
  split_and!.
  - rewrite Hsh, <- (cleaned_shape true 0 [d]) by done.
    by apply Clean_cleaned.
  - cbn [Join]. rewrite bool_decide_eq_false_2 by done.
    change (strings_Join ["/" +:+ d; "../" +:+ nmf] "/")
      with (("/" +:+ d) +:+ "/" +:+ "../" +:+ nmf).
    replace (("/" +:+ d) +:+ "/" +:+ "../" +:+ nmf)
      with ((("/" +:+ d) +:+ "/" +:+ "..") +:+ "/" +:+ nmf)
      by (by rewrite !sapp_assoc).
    rewrite Clean_by_elements. unfold Clean_elements.
    rewrite clean_state_snoc; [| |apply Hn].
    2:{ by destruct d. }
    rewrite clean_state_snoc by done.
    rewrite Hsh, clean_state_shape by done. cbn [fst snd].
    change (elem_step true (shape true 0 [d], dotdot_of true 0) "..")
      with (dotdot_step true (shape true 0 ([] ++ [d])) (dotdot_of true 0)).
    rewrite dotdot_step_pop by done.
    rewrite elem_step_name by done. cbn [fst snd].
    change (shape true 0 ([] ++ [nmf])) with ("/" +:+ nmf). done.
  - change ("/" +:+ nmf) with (shape true 0 ([] ++ [nmf])).
    by rewrite Dir_shape_snoc.
Qed.

Section LoadPage.
Context (AutoCamelCase : list byte → string → list byte).
Context (blackfriday_Run SanitizeBytes : list byte → list byte).

Local Abbreviation LoadPage :=
  (wiki.LoadPage AutoCamelCase blackfriday_Run SanitizeBytes).

(** What [Save] refuses to write, [LoadPage] still reads. Under a data
    directory that is one name below the root, a title that goes one step
    up names a file beside the data directory: [Save] of that title ends
    in the panic of the prefix check and writes nothing, and [LoadPage]
    of it returns the bytes of that file. *)
Theorem LoadPage_reads_outside_data (config : Config) (d nm baseurl : string)
    (fs : FS) (c : list byte) (t : nat) :
  name d → no_slash nm = true →
  data config = "/" +:+ d →
  Stat fs ("/" +:+ nm +:+ FileExtension) = Some (File c t) →
  page_path (data config) ("../" +:+ nm) = "/" +:+ nm +:+ FileExtension ∧
  (∃ page, LoadPage ("../" +:+ nm) config baseurl fs = inl page ∧
           Title page = "../" +:+ nm ∧ Body page = c ∧ Date page = t) ∧
  (∀ body brand0,
     Save (new_page ("../" +:+ nm) body brand0) (data config) fs =
       (Panics "slice bounds out of range", fs)).
Proof.
  intros Hd Hnm Hdata Hf.
  pose proof (store.title_file_name _ Hnm) as Hn.
  destruct (Join_up_from_root d _ Hd Hn) as (Hc & Hj & Hdir).
  assert (page_path (data config) ("../" +:+ nm) =
          "/" +:+ nm +:+ FileExtension) as Hp.
  { unfold page_path. rewrite Hdata.
    by replace (("../" +:+ nm) +:+ FileExtension)
         with ("../" +:+ nm +:+ FileExtension) by (by rewrite !sapp_assoc). }
  split_and!; [done| |].
  - rewrite <- Hp in Hf.
    destruct (store.LoadPage_file AutoCamelCase blackfriday_Run SanitizeBytes
                _ config baseurl fs _ _ Hf) as (page & Hl & HT & HB & HD & _).
    eauto.
  - intros body brand0. unfold Save. cbn [Title new_page].
    pose proof (store.mkSubDir_cases (data config)
                  (("../" +:+ nm) +:+ FileExtension) fs) as Hm.
    cbv zeta in Hm. rewrite Hm. clear Hm.
    replace (("../" +:+ nm) +:+ FileExtension)
      with ("../" +:+ nm +:+ FileExtension) by (by rewrite !sapp_assoc).
    unfold subdir_of. rewrite Hdata, Hc, Hj.
    assert (Clean ("/" +:+ nm +:+ FileExtension) = "/" +:+ nm +:+ FileExtension)
      as -> by (rewrite <- Hj; apply Clean_idempotent).
    rewrite Hdir. rewrite bool_decide_eq_true_2; [done|].
    destruct (name_length d Hd) as [n Hlen]. rewrite length_sapp, Hlen.
    simpl. lia.
Qed.

End LoadPage.

Lemma LoadPage_reads_outside_data_witness :
  let fs := mkFS {[ "/data" := Directory; "/secret.md" := File [x72] 1 ]} 5 100 in
  ∃ page,
    rooted.LoadPage "../secret" rooted.config0 "/view/" fs = inl page ∧
    Body page = [x72] ∧
    Save (new_page "../secret" [x41] "") "/data" fs =
      (Panics "slice bounds out of range", fs).
Proof.
  intros fs.
  assert (name "data") as Hd by (repeat split; done).
  destruct (LoadPage_reads_outside_data rooted.AutoCamelCase id id
              rooted.config0 "data" "secret" "/view/" fs [x72] 1 Hd eq_refl
              eq_refl eq_refl) as (_ & (page & Hl & _ & HB & _) & Hs).
  exists page. split_and!; [exact Hl|exact HB|apply (Hs [x41] "")].
Defined.

End escapes.

(** * The handlers, whatever they come to *)

Module requests.
Import GoString path path_elements os wiki statements.
Import GoString_facts path_facts os_facts wiki_facts.

Section Server.
Context (AutoCamelCase : list byte → string → list byte).
Context (blackfriday_Run SanitizeBytes : list byte → list byte).
Context (URL : Type) (url_Parse : string → option URL).
Context (ResolveReference : URL → URL → URL) (URL_String : URL → string).
Context (Exec : string → Page → option string * error).

Local Abbreviation LoadPage :=
  (wiki.LoadPage AutoCamelCase blackfriday_Run SanitizeBytes).
Local Abbreviation IndexHandler :=
  (wiki.IndexHandler URL url_Parse ResolveReference URL_String).
Local Abbreviation EditHandler :=
  (wiki.EditHandler AutoCamelCase blackfriday_Run SanitizeBytes URL url_Parse
     ResolveReference URL_String Exec).
Local Abbreviation SaveHandler :=
  (wiki.SaveHandler URL url_Parse ResolveReference URL_String).
Local Abbreviation ViewHandler :=
  (wiki.ViewHandler AutoCamelCase blackfriday_Run SanitizeBytes URL url_Parse
     ResolveReference URL_String Exec).

(** Take a handler apart, branch by branch. *)
Ltac branches :=
  unfold wiki.IndexHandler, wiki.EditHandler, wiki.SaveHandler,
    wiki.ViewHandler, wiki.parse_and_resolve, wiki.render;
  repeat (match goal with
          | |- context [url_Parse ?x] => destruct (url_Parse x) eqn:?
          | |- context [ParseForm ?x] => destruct (ParseForm x) eqn:?
          | |- context [wiki.LoadPage ?a ?b ?c ?t ?cf ?u ?fs] =>
              destruct (wiki.LoadPage a b c t cf u fs) eqn:?
          | |- context [Save ?a ?b ?c] =>
              destruct (Save a b c) as [[[?|]|?] ?] eqn:?
          | |- context [Exec ?a ?b] =>
              destruct (Exec a b) as [[?|] [?|]] eqn:?
          end; cbn beta iota zeta).



(** The ways [SaveHandler] refuses a request without a write. A form
    that does not parse and a title whose directory does not begin with
    the cleaned data directory are answered with status 500, the second
    with the text of the path error; a title whose directory is shorter
    than the cleaned data directory ends the handler in a panic, with
    nothing written to the response. In each case the request is counted
    and the file system is as it was. *)
Theorem SaveHandler_refusals (s : Server) (r : Request URL) (p : Params)
    (w : World) :
  let title := TrimLeft_slash (ByName p "title") in
  let d := Clean (data (config s)) in
  let sd := subdir_of (data (config s)) (title +:+ FileExtension) in
  let refused msg :=
    (Returns (), respond (http_Error msg StatusInternalServerError)
                   (Inc "n_save" w)) in
  (ParseForm r ≠ None → SaveHandler s r p w = refused "Internal Error") ∧
  (ParseForm r = None →
   String.length d ≤ String.length sd → String.prefix d sd = false →
   SaveHandler s r p w = refused "File in wrong directory") ∧
  (ParseForm r = None → String.length sd < String.length d →
   SaveHandler s r p w =
     (Panics "slice bounds out of range", Inc "n_save" w)).
Proof.
  intros title d sd refused. unfold wiki.SaveHandler, Save. cbn [Title].
  fold title.
  pose proof (store.mkSubDir_cases (data (config s)) (title +:+ FileExtension)
                (w_fs w)) as Hm.
  cbv zeta in Hm. fold d sd in Hm.
  change (w_fs (Inc "n_save" w)) with (w_fs w). rewrite Hm. clear Hm.
  split_and!.
  - by destruct (ParseForm r).
  - intros -> Hlen Hpre. rewrite bool_decide_eq_false_2 by lia.
    rewrite Hpre. done.
  - intros -> Hlen. rewrite bool_decide_eq_true_2 by lia. done.
Qed.

(** A [SaveHandler] that answered with the redirect has saved the
    page. *)
Lemma SaveHandler_redirect_inv s (r : Request URL) p w w' target :
  SaveHandler s r p w = (Returns (), w') →
  w_resp w' = w_resp w ++ [http_Redirect target StatusFound] →
  Save (new_page (TrimLeft_slash (ByName p "title"))
          (list_byte_of_string (Form_Get (Form r) "body"))
          (brand (config s)))
    (data (config s)) (w_fs w) = (Returns None, w_fs w').
Proof.
  intros Hh Hresp. unfold wiki.SaveHandler in Hh.
  destruct (ParseForm r) as [e|].
  { injection Hh as <-. by apply handlers.respond_inv in Hresp. }
  fold (new_page (TrimLeft_slash (ByName p "title"))
          (list_byte_of_string (Form_Get (Form r) "body"))
          (brand (config s))) in Hh.
  change (w_fs (Inc "n_save" w)) with (w_fs w) in Hh.
  destruct (Save _ _ _) as [[[e|]|msg] fs'] eqn:Hs.
  - injection Hh as <-. by apply handlers.respond_inv in Hresp.
  - unfold wiki.parse_and_resolve in Hh.
    destruct (url_Parse _) as [u|] eqn:Hu; [|done]. by injection Hh as <-.
  - done.
Qed.

(** What was saved is what is shown: after a save request that was
    answered with the redirect, the view handler renders the view
    template, and the edit handler the edit template, on the page of that
    title with the body of the form, for every later request to that
    title on that file system. *)
Theorem saved_page_is_shown (s : Server) (r r' : Request URL) (p : Params)
    (w w' w'' : World) (target : string) (u0 : URL) :
  SaveHandler s r p w = (Returns (), w') →
  w_resp w' = w_resp w ++ [http_Redirect target StatusFound] →
  w_fs w'' = w_fs w' →
  url_Parse "/view/" = Some u0 →
  ∃ page,
    Title page = TrimLeft_slash (ByName p "title") ∧
    Body page = list_byte_of_string (Form_Get (Form r) "body") ∧
    Brand page = brand (config s) ∧
    ViewHandler s r' p w'' = wiki.render Exec "view" page (Inc "n_view" w'') ∧
    EditHandler s r' p w'' = wiki.render Exec "edit" page (Inc "n_edit" w'').
Proof.
  intros Hh Hresp Hfs Hu.
  pose proof (SaveHandler_redirect_inv _ _ _ _ _ _ Hh Hresp) as Hs.
  apply Save_ok in Hs as (t & _ & Hf). cbn [Title Body new_page] in Hf.
  rewrite <- Hfs in Hf.
  destruct (store.LoadPage_file AutoCamelCase blackfriday_Run SanitizeBytes
              (TrimLeft_slash (ByName p "title")) (config s)
              (URL_String (ResolveReference (req_URL r') u0)) (w_fs w'') _ _ Hf)
    as (page & Hl & HT & HB & _ & HBr).
  exists page. split_and!; [done..| |].
  - unfold wiki.ViewHandler, wiki.parse_and_resolve. rewrite Hu.
    change (w_fs (Inc "n_view" w'')) with (w_fs w''). by rewrite Hl.
  - unfold wiki.EditHandler, wiki.parse_and_resolve. rewrite Hu.
    change (w_fs (Inc "n_edit" w'')) with (w_fs w''). by rewrite Hl.
Qed.

Lemma Form_Get_absent (form : list (string * list string)) k :
  k ∉ form.*1 → Form_Get form k = "".
Proof.
  induction form as [|[k' vs] form IH]; [done|]. simpl.
  intros Hk. apply not_elem_of_cons in Hk as [Hne Hk].
  rewrite bool_decide_eq_false_2 by done. by apply IH.
Qed.

(** A save request whose form has no [body] field is a save of the empty
    body: when it is answered with the redirect, the file of the page is
    there and is empty, whatever it held. *)
Theorem SaveHandler_without_body (s : Server) (r : Request URL) (p : Params)
    (w w' : World) (target : string) :
  "body" ∉ (Form r).*1 →
  SaveHandler s r p w = (Returns (), w') →
  w_resp w' = w_resp w ++ [http_Redirect target StatusFound] →
  ∃ t, Stat (w_fs w')
         (page_path (data (config s)) (TrimLeft_slash (ByName p "title"))) =
       Some (File [] t).
Proof.
  intros Hb Hh Hresp.
  pose proof (SaveHandler_redirect_inv _ _ _ _ _ _ Hh Hresp) as Hs.
  rewrite Form_Get_absent in Hs by done.
  apply Save_ok in Hs as (t & _ & Hf). by exists t.
Qed.

(** The store stays a tree: whatever [Save] and [SaveHandler] come to,
    every entry of the file system they leave lies in a directory, if it
    was so before. *)
Theorem store_stays_tree :
  (∀ (p : Page) (datadir : string) (fs : FS),
     tree_like fs → tree_like (Save p datadir fs).2) ∧
  (∀ (s : Server) (r : Request URL) (p : Params) (w : World),
     tree_like (w_fs w) → tree_like (w_fs (SaveHandler s r p w).2)).
Proof.
  split.
  - intros p datadir fs Hwf.
    destruct (Save p datadir fs) as [r fs'] eqn:Hs.
    by eapply pages.Save_tree_like.
  - intros s r p w Hwf. unfold wiki.SaveHandler.
    destruct (ParseForm r); [done|].
    change (w_fs (Inc "n_save" w)) with (w_fs w).
    destruct (Save _ _ (w_fs w)) as [[[e|]|msg] fs'] eqn:Hs;
      pose proof (pages.Save_tree_like _ _ _ _ _ Hwf Hs) as Hwf'; [done| |done].
    unfold wiki.parse_and_resolve. by destruct (url_Parse _).
Qed.

Lemma Save_panic p datadir fs msg fs' :
  Save p datadir fs = (Panics msg, fs') →
  msg = "slice bounds out of range" ∧ fs' = fs.
Proof.
  unfold Save, mkSubDir. destruct (slice _ _ _); [|by intros [= <- <-]].
  case_bool_decide; [done|]. destruct (MkdirAll _ fs) as [[e|] fs1]; [done|].
  by destruct (WriteFile _ _ fs1).
Qed.


End Server.

Lemma SaveHandler_refusals_witness :
  rooted.SaveHandler rooted.server0 (rooted.request "/save/x" "hi")
    [("title", "/../../etcetera/passwd")] rooted.world0 =
    (Returns (),
     respond (http_Error "File in wrong directory" StatusInternalServerError)
       (Inc "n_save" rooted.world0)) ∧
  rooted.SaveHandler rooted.server0 (rooted.request "/save/x" "hi")
    [("title", "/../../etc/passwd")] rooted.world0 =
    (Panics "slice bounds out of range", Inc "n_save" rooted.world0).
Proof.
  split.
  - apply (SaveHandler_refusals string rooted.url_Parse rooted.ResolveReference
             rooted.URL_String rooted.server0 (rooted.request "/save/x" "hi")
             [("title", "/../../etcetera/passwd")] rooted.world0);
      [done|vm_compute; lia|done].
  - apply (SaveHandler_refusals string rooted.url_Parse rooted.ResolveReference
             rooted.URL_String rooted.server0 (rooted.request "/save/x" "hi")
             [("title", "/../../etc/passwd")] rooted.world0);
      [done|vm_compute; lia].
Defined.

Lemma saved_page_is_shown_witness :
  let w' :=
    (rooted.SaveHandler rooted.server0
       (rooted.request "/save/FrontPage" "Hello CamelCase World")
       [("title", "/FrontPage")] rooted.world0).2 in
  ∃ page,
    Title page = "FrontPage" ∧
    Body page = list_byte_of_string "Hello CamelCase World" ∧
    Brand page = "Wiki" ∧
    rooted.ViewHandler rooted.server0 (rooted.request "/view/FrontPage" "")
      [("title", "/FrontPage")] w' =
      wiki.render rooted.Exec "view" page (Inc "n_view" w') ∧
    rooted.EditHandler rooted.server0 (rooted.request "/view/FrontPage" "")
      [("title", "/FrontPage")] w' =
      wiki.render rooted.Exec "edit" page (Inc "n_edit" w').
Proof.
  intros w'.
  by apply (saved_page_is_shown rooted.AutoCamelCase id id string
              rooted.url_Parse rooted.ResolveReference rooted.URL_String
              rooted.Exec rooted.server0
              (rooted.request "/save/FrontPage" "Hello CamelCase World")
              (rooted.request "/view/FrontPage" "") [("title", "/FrontPage")]
              rooted.world0 w' w' "/view/FrontPage" "/view/").
Defined.

Lemma SaveHandler_without_body_witness :
  let w :=
    {| w_fs := mkFS {[ "/data" := Directory;
                       "/data/P.md" := File [x6f; x6c; x64] 1 ]} 5 100;
       w_counters := ∅; w_commits := []; w_index := ∅; w_resp := [] |} in
  let r := {| req_URL := "/save/P"; ParseForm := None; Form := [] |} in
  ∃ t, Stat (w_fs (rooted.SaveHandler rooted.server0 r [("title", "/P")] w).2)
         "/data/P.md" = Some (File [] t).
Proof.
  intros w r.
  apply (SaveHandler_without_body string rooted.url_Parse
           rooted.ResolveReference rooted.URL_String rooted.server0 r
           [("title", "/P")] w _ "/view/P"); [|done..].
  apply not_elem_of_nil.
Defined.

Lemma store_stays_tree_witness :
  tree_like (Save (new_page "a/b/P" [x41] "") "/data" rooted.fs0).2.
Proof.
  apply (proj1 (store_stays_tree string rooted.url_Parse
                  rooted.ResolveReference rooted.URL_String)).
  apply store.tree_like_fs0.
Defined.

End requests.

(** * The counters *)

Module counters.
Import wiki.

Local Open Scope Z_scope.

Lemma int64_range z : - 2 ^ 63 ≤ int64 z < 2 ^ 63.
Proof. unfold int64. pose proof (Z.mod_pos_bound (z + 2 ^ 63) (2 ^ 64)). lia. Qed.

Lemma int64_id z : - 2 ^ 63 ≤ z < 2 ^ 63 → int64 z = z.
Proof. intros Hz. unfold int64. rewrite Z.mod_small; lia. Qed.

Lemma int64_add_l a b : int64 (int64 a + b) = int64 (a + b).
Proof.
  unfold int64. f_equal.
  replace ((a + 2 ^ 63) `mod` 2 ^ 64 - 2 ^ 63 + b + 2 ^ 63)
    with ((a + 2 ^ 63) `mod` 2 ^ 64 + b) by lia.
  rewrite Zplus_mod_idemp_l. f_equal. lia.
Qed.

Lemma int64_add_r a b : int64 (a + int64 b) = int64 (a + b).
Proof. rewrite (Z.add_comm a), int64_add_l. f_equal. lia. Qed.

(** A decrement takes back an increment by the same number, wrap-around
    and all: [DecBy] after [IncBy], or [IncBy] after [DecBy], leaves the
    counter at the count it had, registered now if it was not. [Dec]
    takes back [Inc]. The count a counter is left with is an [int64], the
    counters of other names are not touched, and below the largest
    [int64] the handlers' [Inc] is [IncBy] of one. *)
Theorem counters_round_trip (name : string) (n : Z) (w : World) :
  let c := default 0 (w_counters w !! name) in
  - 2 ^ 63 ≤ c < 2 ^ 63 →
  w_counters (DecBy name n (IncBy name n w)) = <[name := c]> (w_counters w) ∧
  w_counters (IncBy name n (DecBy name n w)) = <[name := c]> (w_counters w) ∧
  w_counters (Dec name (Inc name w)) = <[name := c]> (w_counters w) ∧
  (∃ c', w_counters (IncBy name n w) !! name = Some c' ∧
         - 2 ^ 63 ≤ c' < 2 ^ 63) ∧
  (∀ other, other ≠ name →
     w_counters (IncBy name n w) !! other = w_counters w !! other ∧
     w_counters (DecBy name n w) !! other = w_counters w !! other ∧
     w_counters (Dec name w) !! other = w_counters w !! other) ∧
  (c < 2 ^ 63 - 1 → Inc name w = IncBy name 1 w).
Proof.
  intros c Hc. unfold DecBy, IncBy, Dec, Inc, with_counter. cbn [w_counters].
  fold c. rewrite !lookup_insert_eq. cbn [default].
  unfold Counter_Dec, Counter_Inc. cbv [id]. split_and!.
  - rewrite insert_insert_eq, int64_add_r, int64_add_l.
    f_equal. rewrite <- (int64_id c) at 2 by done. f_equal. lia.
  - rewrite insert_insert_eq, int64_add_l.
    replace (c + int64 (- n) + n) with (c + n + int64 (- n)) by lia.
    rewrite int64_add_r.
    f_equal. rewrite <- (int64_id c) at 2 by done. f_equal. lia.
  - rewrite insert_insert_eq. f_equal.
    rewrite int64_add_r. rewrite <- (int64_id c) at 2 by done. f_equal. lia.
  - eexists. split; [done|]. apply int64_range.
  - intros other Hne. by rewrite !lookup_insert_ne.
  - intros Hlt. by rewrite int64_id by lia.
Qed.

Lemma counters_round_trip_witness :
  let w :=
    {| w_fs := rooted.fs0; w_counters := {[ "n" := 2 ^ 63 - 1 ]};
       w_commits := []; w_index := ∅; w_resp := [] |} in
  w_counters (IncBy "n" 1 w) !! "n" = Some (- 2 ^ 63) ∧
  w_counters (DecBy "n" 1 (IncBy "n" 1 w)) = {[ "n" := 2 ^ 63 - 1 ]}.
Proof.
  intros w. split; [done|].
  destruct (counters_round_trip "n" 1 w) as (H & _); [done|].
  rewrite H. by vm_compute.
Defined.

End counters.
